(** * Median Absolute Deviation detector (pyod/models/mad.py)

    A shallow embedding of [pyod.models.mad]: the helper [_check_dim] and the
    class [MAD] with [__init__], [fit], [decision_function], [_mad] and
    [_process_decision_scores], together with the NumPy and scikit-learn
    operations those methods call.

    Number model.  A NumPy [float64] is one of [nan], [inf], [ninf] or a
    finite value carried as an exact rational ([Qc]).  The special values
    follow IEEE 754 (NaN is absorbing, [inf - inf], [0 * inf], [inf / inf] and
    [0 / 0] are NaN, a non-zero finite value divided by zero is infinite).
    Operations on finite values are exact: rounding, overflow of finite
    operands and the sign of zero are outside this model.  The only divisors
    in the program are element counts and [median_diff_], the median of
    absolute values, so a zero divisor is always the positive zero.

    Object model.  A Python attribute that may be missing is an [option];
    an attribute that may hold [None] is an [option] of its own, so
    [median_ : option (option float64)] distinguishes "no such attribute",
    "None" and a cached number.  Methods run in a state-and-exception monad
    over the instance. *)

From Stdlib Require Import String DecimalString.
From Stdlib Require Import List ZArith QArith Qabs Qcanon Qcabs Bool Lia.
From Stdlib Require Import Permutation Sorted.
Import ListNotations.

(** ** NumPy *)

Module np.

Inductive float64 : Type :=
| nan
| inf
| ninf
| fin (q : Qc).

Definition isnan (x : float64) : bool :=
  match x with nan => true | _ => false end.

Definition isinf (x : float64) : bool :=
  match x with inf | ninf => true | _ => false end.

Definition isfinite (x : float64) : bool :=
  match x with fin _ => true | _ => false end.

(** Sign of a non-NaN value as -1, 0 or 1 (NaN is given 0 and never asked). *)
Definition sgn (x : float64) : Z :=
  match x with
  | nan => 0
  | inf => 1
  | ninf => -1
  | fin q => match (q ?= 0)%Qc with Lt => -1 | Eq => 0 | Gt => 1 end
  end.

Definition of_sign (s : Z) : float64 :=
  match s with
  | Z0 => nan
  | Zpos _ => inf
  | Zneg _ => ninf
  end.

Definition negative (x : float64) : float64 :=
  match x with
  | nan => nan
  | inf => ninf
  | ninf => inf
  | fin q => fin (- q)
  end.

Definition add (x y : float64) : float64 :=
  match x, y with
  | nan, _ | _, nan => nan
  | inf, ninf | ninf, inf => nan
  | inf, _ | _, inf => inf
  | ninf, _ | _, ninf => ninf
  | fin a, fin b => fin (a + b)
  end.

Definition subtract (x y : float64) : float64 := add x (negative y).

Definition multiply (x y : float64) : float64 :=
  match x, y with
  | nan, _ | _, nan => nan
  | fin a, fin b => fin (a * b)
  | _, _ => of_sign (sgn x * sgn y)
  end.

(** [x / y]; a zero divisor is the positive zero. *)
Definition true_divide (x y : float64) : float64 :=
  match x, y with
  | nan, _ | _, nan => nan
  | fin a, fin b =>
      if Qc_eq_bool b 0 then of_sign (sgn x) else fin (a / b)
  | fin _, _ => fin 0
  | _, fin b => match (b ?= 0)%Qc with Lt => negative x | _ => x end
  | _, _ => nan
  end.

Definition absolute (x : float64) : float64 :=
  match x with
  | nan => nan
  | inf | ninf => inf
  | fin q => fin (Qcabs q)
  end.

(** Comparisons; every comparison with NaN is false. *)
Definition less_equal (x y : float64) : bool :=
  match x, y with
  | nan, _ | _, nan => false
  | ninf, _ | _, inf => true
  | fin a, fin b => Qle_bool a b
  | _, _ => false
  end.

Definition greater (x y : float64) : bool :=
  match x, y with
  | nan, _ | _, nan => false
  | fin a, fin b => negb (Qle_bool a b)
  | inf, inf | ninf, ninf => false
  | inf, _ | _, ninf => true
  | _, _ => false
  end.

(** Largest finite double, [(2^53 - 1) * 2^971], as [np.finfo(float64).max]. *)
Definition float64_max : Qc := Q2Qc (inject_Z ((2 ^ 53 - 1) * 2 ^ 971)).

(** [np.nan_to_num(x)] with its default arguments [nan=0.0, posinf=None,
    neginf=None]: NaN becomes zero, positive infinity the largest finite
    double and negative infinity the most negative one. *)
Definition nan_to_num1 (x : float64) : float64 :=
  match x with
  | nan => fin 0
  | inf => fin float64_max
  | ninf => fin (- float64_max)
  | fin q => fin q
  end.

(** *** Arrays *)

Record ndarray (A : Type) : Type := mk_ndarray {
  shape : list nat;
  data : list A            (* the elements in row-major order *)
}.

Arguments mk_ndarray {A} shape data.
Arguments shape {A} n.
Arguments data {A} n.

(** Elementwise application, the shape is kept. *)
Definition elementwise {A B} (f : A -> B) (a : ndarray A) : ndarray B :=
  mk_ndarray (shape a) (map f (data a)).

(** [np.reshape(X, (-1, 1))] *)
Definition reshape_col {A} (a : ndarray A) : ndarray A :=
  mk_ndarray [length (data a); 1%nat] (data a).

(** [np.ravel(a)] *)
Definition ravel {A} (a : ndarray A) : ndarray A :=
  mk_ndarray [length (data a)] (data a).

Definition abs (a : ndarray float64) : ndarray float64 :=
  elementwise absolute a.

Definition nan_to_num (a : ndarray float64) : ndarray float64 :=
  elementwise nan_to_num1 a.

(** *** Median *)

Fixpoint insert (x : float64) (l : list float64) : list float64 :=
  match l with
  | [] => [x]
  | y :: l' => if less_equal x y then x :: l else y :: insert x l'
  end.

Fixpoint sort (l : list float64) : list float64 :=
  match l with
  | [] => []
  | x :: l' => insert x (sort l')
  end.

Definition sum (l : list float64) : float64 := fold_left add l (fin 0).

Definition of_nat (n : nat) : float64 := fin (Q2Qc (inject_Z (Z.of_nat n))).

(** [np.mean] of a flat array: the sum divided by the element count. *)
Definition mean (l : list float64) : float64 :=
  true_divide (sum l) (of_nat (length l)).

(** [part[index:index+1]] and [part[index-1:index+1]] *)
Definition slice {A} (lo hi : nat) (l : list A) : list A :=
  firstn (hi - lo) (skipn lo l).

(** [np.median] of a flat, NaN-free array: the mean of the middle element
    (odd size) or of the two middle elements (even size) of the data in
    ascending order. *)
Definition median (l : list float64) : float64 :=
  let part := sort l in
  let index := Nat.div (length part) 2 in
  if Nat.odd (length part)
  then mean (slice index (index + 1) part)
  else mean (slice (index - 1) (index + 1) part).

(** [np.nanmedian(a)] over the flattened array: NaNs are removed first; an
    array with nothing left (all NaN, or empty) yields NaN. *)
Definition nanmedian (a : ndarray float64) : float64 :=
  let arr1d_parsed := filter (fun x => negb (isnan x)) (data a) in
  match arr1d_parsed with
  | [] => nan
  | _ => median arr1d_parsed
  end.

End np.

(** ** Exceptions and the method monad *)

Inductive exn : Type :=
| ValueError (msg : string)
| TypeError (msg : string)
| IndexError (msg : string)
| AttributeError (msg : string).

Inductive result (A : Type) : Type :=
| Ok (a : A)
| Raise (e : exn).

Arguments Ok {A} a.
Arguments Raise {A} e.

(** A method body: it reads and writes the instance and either returns a
    value or raises; the instance is left as it was at the raise. *)
Definition method (S A : Type) : Type := S -> result A * S.

Definition ret {S A} (a : A) : method S A := fun s => (Ok a, s).

Definition bind {S A B} (m : method S A) (k : A -> method S B) : method S B :=
  fun s =>
    match m s with
    | (Ok a, s') => k a s'
    | (Raise e, s') => (Raise e, s')
    end.

(** A call of a function that touches no instance. *)
Definition call {S A} (r : result A) : method S A := fun s => (r, s).

Definition modify {S} (f : S -> S) : method S unit := fun s => (Ok tt, f s).

Definition gets {S A} (f : S -> A) : method S A := fun s => (Ok (f s), s).

Declare Scope method_scope.
Delimit Scope method_scope with method.
Notation "x <- m ;; k" := (bind m (fun x => k))
  (at level 61, m at next level, right associativity) : method_scope.
Notation "m ;; k" := (bind m (fun _ => k))
  (at level 61, right associativity) : method_scope.

(** ** scikit-learn *)

Module sklearn.

(** Modelled from the spec: [sklearn.utils.check_array] is an external
    validator.  With the flags the detector passes, [ensure_2d=False] and
    [force_all_finite=False], it accepts a numeric array of one or two
    dimensions whatever NaN or infinite entries it holds, and returns it
    unchanged; it rejects a scalar, an array of three or more dimensions, an
    array without samples and a 2-D array without features. *)
Definition check_array (X : np.ndarray np.float64)
  : result (np.ndarray np.float64) :=
  match np.shape X with
  | nil =>
      Raise (TypeError "Singleton array cannot be considered a valid collection.")
  | n_samples :: nil =>
      if Nat.eqb n_samples 0
      then Raise (ValueError "Found array with 0 sample(s) while a minimum of 1 is required.")
      else Ok X
  | n_samples :: n_features :: nil =>
      if Nat.eqb n_samples 0
      then Raise (ValueError "Found array with 0 sample(s) while a minimum of 1 is required.")
      else if Nat.eqb n_features 0
      then Raise (ValueError "Found array with 0 feature(s) while a minimum of 1 is required.")
      else Ok X
  | _ => Raise (ValueError "Found array with dim >= 3. Estimator expected <= 2.")
  end.

End sklearn.

(** ** pyod.models.mad *)

(** ['{}'.format(n)] for a natural number. *)
Definition format_nat (n : nat) : string :=
  NilEmpty.string_of_uint (Nat.to_uint n).

Definition dim_message (n : nat) : string :=
  ("MAD algorithm is just for univariate data. Got Data with "
     ++ format_nat n ++ " Dimensions.")%string.

(** [X.shape[1]]: indexing the shape tuple past its end raises. *)
Definition shape_1 (X : np.ndarray np.float64) : result nat :=
  match nth_error (np.shape X) 1 with
  | Some n => Ok n
  | None => Raise (IndexError "tuple index out of range")
  end.

Definition _check_dim (X : np.ndarray np.float64) : result unit :=
  match shape_1 X with
  | Raise e => Raise e
  | Ok n =>
      if negb (Nat.eqb n 1)
      then Raise (ValueError (dim_message n))
      else Ok tt
  end.

(** Python values a caller may pass as [threshold]. *)
Inductive pyobj : Type :=
| PyInt (z : Z)
| PyFloat (v : np.float64)
| PyStr (s : string)
| PyNone.

(** The values for which [isinstance(threshold, (float, int))] holds. *)
Inductive number : Type :=
| Int (z : Z)
| Float (v : np.float64).

Definition as_number (o : pyobj) : option number :=
  match o with
  | PyInt z => Some (Int z)
  | PyFloat v => Some (Float v)
  | _ => None
  end.

Definition to_float64 (t : number) : np.float64 :=
  match t with
  | Int z => np.fin (Q2Qc (inject_Z z))
  | Float v => v
  end.

(** The instance.  [contamination], [threshold] exist from construction on;
    every other attribute is created by the first assignment to it.  The
    summary attributes [_mu] and [_sigma] ([np.nanmean] and [np.nanstd] of
    the scores, kept for [predict_proba]) are written last by
    [_process_decision_scores], read by no method of this class and need a
    square root; the record leaves them out. *)
Record MAD : Type := mk_MAD {
  contamination : np.float64;
  threshold : number;
  _classes : option nat;
  threshold_ : option number;
  median_ : option (option np.float64);
  median_diff_ : option (option np.float64);
  decision_scores_ : option (np.ndarray np.float64);
  labels_ : option (np.ndarray Z)
}.

Definition set__classes (v : nat) (s : MAD) : MAD :=
  mk_MAD (contamination s) (threshold s) (Some v) (threshold_ s)
         (median_ s) (median_diff_ s) (decision_scores_ s) (labels_ s).

Definition set_threshold_ (v : number) (s : MAD) : MAD :=
  mk_MAD (contamination s) (threshold s) (_classes s) (Some v)
         (median_ s) (median_diff_ s) (decision_scores_ s) (labels_ s).

Definition set_median_ (v : option np.float64) (s : MAD) : MAD :=
  mk_MAD (contamination s) (threshold s) (_classes s) (threshold_ s)
         (Some v) (median_diff_ s) (decision_scores_ s) (labels_ s).

Definition set_median_diff_ (v : option np.float64) (s : MAD) : MAD :=
  mk_MAD (contamination s) (threshold s) (_classes s) (threshold_ s)
         (median_ s) (Some v) (decision_scores_ s) (labels_ s).

Definition set_decision_scores_ (v : np.ndarray np.float64) (s : MAD) : MAD :=
  mk_MAD (contamination s) (threshold s) (_classes s) (threshold_ s)
         (median_ s) (median_diff_ s) (Some v) (labels_ s).

Definition set_labels_ (v : np.ndarray Z) (s : MAD) : MAD :=
  mk_MAD (contamination s) (threshold s) (_classes s) (threshold_ s)
         (median_ s) (median_diff_ s) (decision_scores_ s) (Some v).

(** [self.name]: reading an attribute that was never assigned raises. *)
Definition getattr {A} (field : MAD -> option A) (name : string)
  : method MAD A :=
  fun s =>
    match field s with
    | Some v => (Ok v, s)
    | None =>
        (Raise (AttributeError
                  ("'MAD' object has no attribute '" ++ name ++ "'")%string), s)
    end.

Local Open Scope method_scope.

(** Modelled from the spec: [BaseDetector.__init__] is not under src/; the
    framework supplies the contamination slot, which it stores. *)
Definition BaseDetector__init__ (contamination : np.float64)
  (threshold : number) : MAD :=
  mk_MAD contamination threshold None None None None None None.

(** Modelled from the spec: [BaseDetector._set_n_classes] is not under src/;
    the class-count tracker called with the ignored label argument: two
    classes without labels, else the number of distinct labels.  The label
    argument is [None] or a list of integer class labels here, for which
    the tracker returns; [fit_with] below takes the method as a parameter,
    for label arguments on which the base class raises. *)
Definition _set_n_classes (y : option (list Z)) : method MAD unit :=
  modify (set__classes
            (match y with
             | None => 2%nat
             | Some labels => length (nodup Z.eq_dec labels)
             end)).

(** ['{}'.format(type(o))] *)
Definition format_type (o : pyobj) : string :=
  match o with
  | PyInt _ => "<class 'int'>"
  | PyFloat _ => "<class 'float'>"
  | PyStr _ => "<class 'str'>"
  | PyNone => "<class 'NoneType'>"
  end.

(** [MAD(threshold, contamination)]; the defaults are 3.5 and 0.1. *)
Definition __init__ (threshold : pyobj) (contamination : np.float64)
  : result MAD :=
  match as_number threshold with
  | None =>
      Raise (TypeError
               ("threshold must be a number. Got " ++ format_type threshold)%string)
  | Some t => Ok (BaseDetector__init__ contamination t)
  end.

Definition coef : np.float64 := np.fin (Q2Qc (6745 # 10000)).

Definition _mad (X : np.ndarray np.float64)
  : method MAD (np.ndarray np.float64) :=
  let obs := np.reshape_col X in
  cached <- getattr median_ "median_" ;;
  let m := match cached with
           | None => np.nanmedian obs
           | Some m => m
           end in
  modify (set_median_ (Some m)) ;;
  let diff := np.abs (np.elementwise (fun x => np.subtract x m) obs) in
  cached <- getattr median_diff_ "median_diff_" ;;
  let d := match cached with
           | None => np.nanmedian diff
           | Some d => d
           end in
  modify (set_median_diff_ (Some d)) ;;
  ret (np.nan_to_num
         (np.ravel
            (np.elementwise
               (fun x => np.true_divide (np.multiply coef x) d) diff))).

Definition decision_function (X : np.ndarray np.float64)
  : method MAD (np.ndarray np.float64) :=
  X <- call (sklearn.check_array X) ;;
  call (_check_dim X) ;;
  _mad X.

Definition _process_decision_scores : method MAD unit :=
  scores <- getattr decision_scores_ "decision_scores_" ;;
  t <- gets threshold ;;
  modify (set_labels_
            (np.ravel
               (np.elementwise
                  (fun x => if np.greater x (to_float64 t) then 1%Z else 0%Z)
                  scores))).

Definition fit (X : np.ndarray np.float64) (y : option (list Z))
  : method MAD unit :=
  X <- call (sklearn.check_array X) ;;
  call (_check_dim X) ;;
  _set_n_classes y ;;
  t <- gets threshold ;;
  modify (set_threshold_ t) ;;
  modify (set_median_ None) ;;
  modify (set_median_diff_ None) ;;
  scores <- decision_function X ;;
  modify (set_decision_scores_ scores) ;;
  _process_decision_scores.

(** [fit] with the base-class method of line 81 taken as a parameter: any
    method over the instance, for any type of label argument, that may
    write attributes and may raise. *)
Definition fit_with {Y : Type} (set_n_classes : Y -> method MAD unit)
  (X : np.ndarray np.float64) (y : Y) : method MAD unit :=
  X <- call (sklearn.check_array X) ;;
  call (_check_dim X) ;;
  set_n_classes y ;;
  t <- gets threshold ;;
  modify (set_threshold_ t) ;;
  modify (set_median_ None) ;;
  modify (set_median_diff_ None) ;;
  scores <- decision_function X ;;
  modify (set_decision_scores_ scores) ;;
  _process_decision_scores.

(** ** Vocabulary of the specification *)

(** The modified z-score of one observation, [0.6745 * |x - median| / mad],
    before the replacement of non-finite entries. *)
Definition modified_z_score (median mad x : np.float64) : np.float64 :=
  np.true_divide (np.multiply coef (np.absolute (np.subtract x median))) mad.

(** The absolute deviations [|x_i - median|] of a column. *)
Definition abs_deviations (median : np.float64) (X : np.ndarray np.float64)
  : np.ndarray np.float64 :=
  np.abs (np.elementwise (fun x => np.subtract x median) (np.reshape_col X)).

(** The score sequence the scoring routine returns for cached statistics
    [median] and [mad]. *)
Definition scores_with (median mad : np.float64) (X : np.ndarray np.float64)
  : np.ndarray np.float64 :=
  np.mk_ndarray [length (np.data X)]
    (map (fun x => np.nan_to_num1 (modified_z_score median mad x)) (np.data X)).

Definition labels_of (t : number) (scores : np.ndarray np.float64)
  : np.ndarray Z :=
  np.mk_ndarray [length (np.data scores)]
    (map (fun x => if np.greater x (to_float64 t) then 1%Z else 0%Z)
         (np.data scores)).

(** A two-dimensional array with one feature and at least one sample. *)
Definition single_column (X : np.ndarray np.float64) : Prop :=
  exists n, np.shape X = [S n; 1%nat].

(** A column built from its values. *)
Definition column (l : list np.float64) : np.ndarray np.float64 :=
  np.mk_ndarray [length l; 1%nat] l.

(** The state a successful [fit] leaves behind. *)
Definition fitted (X : np.ndarray np.float64) (y : option (list Z)) (s : MAD)
  : MAD :=
  let m := np.nanmedian (np.reshape_col X) in
  let d := np.nanmedian (abs_deviations m X) in
  let scores := scores_with m d X in
  mk_MAD (contamination s) (threshold s)
         (Some match y with
               | None => 2%nat
               | Some labels => length (nodup Z.eq_dec labels)
               end)
         (Some (threshold s)) (Some (Some m)) (Some (Some d))
         (Some scores) (Some (labels_of (threshold s) scores)).

(** The state a successful [fit_with] leaves behind, [s1] being the instance
    as the base-class method returned it. *)
Definition fitted_from (X : np.ndarray np.float64) (s1 : MAD) : MAD :=
  let m := np.nanmedian (np.reshape_col X) in
  let d := np.nanmedian (abs_deviations m X) in
  let scores := scores_with m d X in
  mk_MAD (contamination s1) (threshold s1) (_classes s1)
         (Some (threshold s1)) (Some (Some m)) (Some (Some d))
         (Some scores) (Some (labels_of (threshold s1) scores)).

(** A finite value whose double is still a finite double: [c + c] does not
    exceed the largest one. *)
Definition doubles_without_overflow (c : np.float64) : Prop :=
  match c with
  | np.fin q => (Qcabs q + Qcabs q <= np.float64_max)%Qc
  | _ => False
  end.

(** A base-class method that leaves the two caches alone. *)
Definition keeps_caches {Y : Type} (set_n_classes : Y -> method MAD unit)
  : Prop :=
  forall y s,
    median_ (snd (set_n_classes y s)) = median_ s /\
    median_diff_ (snd (set_n_classes y s)) = median_diff_ s.

(** The detector a caller gets from [MAD()] with a numeric threshold. *)
Definition detector (t : number) (c : np.float64) : MAD :=
  BaseDetector__init__ c t.

(** Scoring calls in a row, whether they return or raise. *)
Definition score_all (Ys : list (np.ndarray np.float64)) (s : MAD) : MAD :=
  fold_left (fun s Y => snd (decision_function Y s)) Ys s.

(** One call a user makes on an instance, and the instance after a run of
    such calls, each of them returning or raising. *)
Inductive method_call : Type :=
| Fit (X : np.ndarray np.float64) (y : option (list Z))
| Score (X : np.ndarray np.float64).

Definition after_call (s : MAD) (c : method_call) : MAD :=
  match c with
  | Fit X y => snd (fit X y s)
  | Score X => snd (decision_function X s)
  end.

Definition after_calls (calls : list method_call) (s : MAD) : MAD :=
  fold_left after_call calls s.

(** A value that is not negative: a finite number at least 0, [inf], or
    [nan]. *)
Definition nonneg_or_nan (x : np.float64) : Prop :=
  match x with
  | np.ninf => False
  | np.fin q => (0 <= q)%Qc
  | _ => True
  end.

(** A finite real number greater than or equal to 0. *)
Definition finite_nonneg (x : np.float64) : Prop :=
  match x with
  | np.fin q => (0 <= q)%Qc
  | _ => False
  end.

(** The instances a caller can hold: a freshly constructed detector, and
    whatever [fit] and [decision_function] leave behind, returning or
    raising. *)
Inductive reachable : MAD -> Prop :=
| reach_init t c s : __init__ t c = Ok s -> reachable s
| reach_fit X y s : reachable s -> reachable (snd (fit X y s))
| reach_score X s : reachable s -> reachable (snd (decision_function X s)).

(** What every reachable instance satisfies: the two cache attributes exist
    together, a cached median absolute deviation is not negative, and the
    stored decision scores are finite and not negative. *)
Definition well_formed (s : MAD) : Prop :=
  (median_ s = None <-> median_diff_ s = None) /\
  (forall d, median_diff_ s = Some (Some d) -> nonneg_or_nan d) /\
  (forall scores, decision_scores_ s = Some scores ->
                  Forall finite_nonneg (np.data scores)).

(** C1 as the claim has it: after [fit], the score of every observation
    equals [0.6745 * |x_i - median| / mad] for the cached statistics. *)
Definition scores_equal_modified_z_scores : Prop :=
  forall X y s s' m d scores,
    fit X y s = (Ok tt, s') ->
    median_ s' = Some (Some m) -> median_diff_ s' = Some (Some d) ->
    decision_scores_ s' = Some scores ->
    forall i x,
      nth_error (np.data X) i = Some x ->
      nth_error (np.data scores) i = Some (modified_z_score m d x).

(** C3 as the claim has it: every entry of [0.6745 * diff / mad] that is
    NaN or infinite comes back as 0. *)
Definition nonfinite_scores_become_zero : Prop :=
  forall X s scores s' m d,
    decision_function X s = (Ok scores, s') ->
    median_ s' = Some (Some m) -> median_diff_ s' = Some (Some d) ->
    forall i x,
      nth_error (np.data X) i = Some x ->
      np.isfinite (modified_z_score m d x) = false ->
      nth_error (np.data scores) i = Some (np.fin 0).

(** C7 as the claim has it: a column of [n >= 1] equal values (a value
    equal to itself is not NaN) is fitted with a median absolute deviation
    of 0 and all scores 0. *)
Definition constant_column_has_zero_mad : Prop :=
  forall (c : np.float64) (n : nat) y s,
    np.isnan c = false ->
    let X := np.mk_ndarray [S n; 1%nat] (repeat c (S n)) in
    fst (fit X y s) = Ok tt /\
    median_diff_ (snd (fit X y s)) = Some (Some (np.fin 0)) /\
    option_map (@np.data _) (decision_scores_ (snd (fit X y s)))
      = Some (repeat (np.fin 0) (S n)).

(** C9 as the claim has it: a [fit] that fails in or after the
    dimensionality check has already reset both caches to unset, and a [fit]
    that fails in validation has left the instance untouched. *)
Definition failed_fit_resets_caches : Prop :=
  forall X y s e s',
    fit X y s = (Raise e, s') ->
    (sklearn.check_array X = Ok X ->
       median_ s' = Some None /\ median_diff_ s' = Some None) /\
    (sklearn.check_array X = Raise e -> s' = s).

(** *** Decidable equality of values, for concrete runs *)

Definition float64_eqb (x y : np.float64) : bool :=
  match x, y with
  | np.nan, np.nan | np.inf, np.inf | np.ninf, np.ninf => true
  | np.fin a, np.fin b => Qc_eq_bool a b
  | _, _ => false
  end.

Fixpoint list_eqb {A} (eqb : A -> A -> bool) (l1 l2 : list A) : bool :=
  match l1, l2 with
  | nil, nil => true
  | x :: l1', y :: l2' => eqb x y && list_eqb eqb l1' l2'
  | _, _ => false
  end.

Definition option_eqb {A} (eqb : A -> A -> bool) (o1 o2 : option A) : bool :=
  match o1, o2 with
  | None, None => true
  | Some x, Some y => eqb x y
  | _, _ => false
  end.

(** [x] is a finite number within [tol] of [approx]. *)
Definition close_to (tol approx : Q) (x : np.float64) : bool :=
  match x with
  | np.fin q => Qle_bool (Qabs (q - approx)) tol
  | _ => false
  end.

Arguments close_to (tol approx)%_Q x.

Fixpoint all_close (tol : Q) (approx : list Q) (l : list np.float64) : bool :=
  match approx, l with
  | nil, nil => true
  | a :: approx', x :: l' => close_to tol a x && all_close tol approx' l'
  | _, _ => false
  end.

(** Decimal literals for examples. *)
Definition dec (q : Q) : np.float64 := np.fin (Q2Qc q).
Arguments dec q%_Q.

Local Open Scope nat_scope.

(** * Execution lemmas *)

Ltac run :=
  unfold bind, ret, call, modify, gets, getattr;
  cbn [fst snd
       contamination threshold _classes threshold_ median_ median_diff_
       decision_scores_ labels_ set__classes set_threshold_ set_median_
       set_median_diff_ set_decision_scores_ set_labels_
       np.data np.shape].

Lemma float64_eqb_eq x y : float64_eqb x y = true -> x = y.
Proof.
  destruct x, y; simpl; try discriminate; try reflexivity.
  intros H. f_equal. now apply Qc_eq_bool_correct.
Qed.

Lemma list_eqb_eq {A} (eqb : A -> A -> bool) :
  (forall x y, eqb x y = true -> x = y) ->
  forall l1 l2, list_eqb eqb l1 l2 = true -> l1 = l2.
Proof.
  intros Heq. induction l1 as [|x l1 IH]; intros [|y l2]; simpl;
    try discriminate; try reflexivity.
  intros H. apply andb_prop in H. destruct H as [Hx Hl].
  f_equal; [now apply Heq | now apply IH].
Qed.

Lemma option_eqb_eq {A} (eqb : A -> A -> bool) :
  (forall x y, eqb x y = true -> x = y) ->
  forall o1 o2, option_eqb eqb o1 o2 = true -> o1 = o2.
Proof.
  intros Heq [x|] [y|]; simpl; try discriminate; try reflexivity.
  intros H. f_equal. now apply Heq.
Qed.

Ltac float_eq :=
  lazymatch goal with
  | |- @eq np.float64 _ _ =>
      apply float64_eqb_eq; vm_compute; reflexivity
  | |- @eq (list np.float64) _ _ =>
      apply (list_eqb_eq float64_eqb float64_eqb_eq); vm_compute; reflexivity
  | |- @eq (option (option np.float64)) _ _ =>
      apply (option_eqb_eq _ (option_eqb_eq _ float64_eqb_eq));
      vm_compute; reflexivity
  end.

(** ** Concrete runs of the model *)

Example special_values :
  np.subtract np.inf np.inf = np.nan /\
  np.true_divide (dec 0) (dec 0) = np.nan /\
  np.true_divide (dec 2.698) (dec 0) = np.inf /\
  np.true_divide np.inf np.inf = np.nan /\
  np.greater np.nan (dec 3.5) = false.
Proof. repeat split. Qed.

Example nanmedian_skips_nan :
  np.nanmedian (column [dec 5; np.nan; dec 1; dec 3]) = dec 3 /\
  np.nanmedian (column [dec 4; dec 1; np.nan; dec 2; dec 3]) = dec 2.5 /\
  np.nanmedian (column [np.nan; np.nan]) = np.nan /\
  np.nanmedian (column [np.ninf; np.inf]) = np.nan.
Proof.
  repeat split; float_eq.
Qed.

(** ** How the methods run *)

Lemma check_array_column X :
  single_column X -> sklearn.check_array X = Ok X.
Proof. intros [n H]. unfold sklearn.check_array. now rewrite H. Qed.

Lemma _check_dim_column X : single_column X -> _check_dim X = Ok tt.
Proof. intros [n H]. unfold _check_dim, shape_1. now rewrite H. Qed.

(** What passes validation and the dimensionality check is a column. *)
Lemma checks_pass_inv X X' :
  sklearn.check_array X = Ok X' -> _check_dim X' = Ok tt ->
  X' = X /\ single_column X.
Proof.
  unfold sklearn.check_array, _check_dim, shape_1, single_column.
  destruct (np.shape X) as [|n [|k [|? ?]]] eqn:Hs; try discriminate.
  - destruct n; simpl; try discriminate. intros [= <-]. rewrite Hs. discriminate.
  - destruct n; simpl; try discriminate.
    destruct k as [|[|k]]; simpl; try discriminate.
    + intros [= <-]. rewrite Hs. simpl. intros _. split; eauto.
    + intros [= <-]. rewrite Hs. discriminate.
Qed.

Lemma _mad_run X s c1 c2 :
  median_ s = Some c1 -> median_diff_ s = Some c2 ->
  let m := match c1 with
           | None => np.nanmedian (np.reshape_col X)
           | Some m => m
           end in
  let d := match c2 with
           | None => np.nanmedian (abs_deviations m X)
           | Some d => d
           end in
  _mad X s =
    (Ok (scores_with m d X),
     set_median_diff_ (Some d) (set_median_ (Some m) s)).
Proof.
  intros H1 H2. unfold _mad. run. rewrite H1. run. rewrite H2. run.
  unfold scores_with, abs_deviations, modified_z_score.
  unfold np.nan_to_num, np.ravel, np.abs, np.elementwise, np.reshape_col. run.
  rewrite !map_map, !length_map. reflexivity.
Qed.

Lemma _mad_unset X s : median_ s = None ->
  _mad X s =
    (Raise (AttributeError "'MAD' object has no attribute 'median_'"), s).
Proof. intros H. unfold _mad. run. now rewrite H. Qed.

Lemma decision_function_run X s c1 c2 :
  single_column X -> median_ s = Some c1 -> median_diff_ s = Some c2 ->
  decision_function X s = _mad X s.
Proof.
  intros HX H1 H2. unfold decision_function, bind, call.
  rewrite (check_array_column _ HX), (_check_dim_column _ HX). reflexivity.
Qed.

(** A scoring call with both caches populated changes nothing. *)
Lemma decision_function_cached X s m d :
  single_column X ->
  median_ s = Some (Some m) -> median_diff_ s = Some (Some d) ->
  decision_function X s = (Ok (scores_with m d X), s).
Proof.
  intros HX H1 H2. rewrite (decision_function_run _ _ _ _ HX H1 H2).
  rewrite (_mad_run X _ _ _ H1 H2). f_equal.
  destruct s; cbn in *; subst; reflexivity.
Qed.

(** A scoring call that raises leaves the instance as it was, as long as the
    two cache attributes exist together. *)
Lemma decision_function_state X s :
  (median_ s = None <-> median_diff_ s = None) ->
  forall e s', decision_function X s = (Raise e, s') -> s' = s.
Proof.
  intros Hboth e s'. unfold decision_function, bind, call.
  destruct (sklearn.check_array X) as [X'|e0]; [|now intros [= _ <-]].
  destruct (_check_dim X') as [[]|e0]; [|now intros [= _ <-]].
  destruct (median_ s) as [c1|] eqn:H1.
  - destruct (median_diff_ s) as [c2|] eqn:H2.
    + rewrite (_mad_run X' _ _ _ H1 H2). discriminate.
    + destruct Hboth as [_ Hb]. specialize (Hb eq_refl). discriminate.
  - rewrite (_mad_unset X' _ H1). now intros [= _ <-].
Qed.

Lemma fit_column X y s : single_column X -> fit X y s = (Ok tt, fitted X y s).
Proof.
  intros HX. unfold fit, bind, call.
  rewrite (check_array_column _ HX), (_check_dim_column _ HX).
  unfold _set_n_classes. run.
  erewrite decision_function_run; eauto; try reflexivity.
  erewrite _mad_run; try reflexivity.
  unfold _process_decision_scores. run.
  unfold fitted, labels_of, scores_with, np.ravel, np.elementwise. run.
  rewrite !length_map. reflexivity.
Qed.

(** [fit] returns only for a column, and raises only before it has written
    anything. *)
Lemma fit_cases X y s :
  (single_column X /\ fit X y s = (Ok tt, fitted X y s)) \/
  (~ single_column X /\ exists e, fit X y s = (Raise e, s)).
Proof.
  destruct (sklearn.check_array X) as [X'|e] eqn:Hc.
  - destruct (_check_dim X') as [[]|e] eqn:Hd.
    + destruct (checks_pass_inv X _ Hc Hd) as [_ HX].
      left. split; [assumption | now apply fit_column].
    + right. split.
      * intros HX. rewrite (check_array_column _ HX) in Hc.
        injection Hc as <-. rewrite (_check_dim_column _ HX) in Hd. discriminate.
      * exists e. unfold fit, bind, call. now rewrite Hc, Hd.
  - right. split.
    + intros HX. rewrite (check_array_column _ HX) in Hc. discriminate.
    + exists e. unfold fit, bind, call. now rewrite Hc.
Qed.

(** A missing value among valid ones: [fit] returns, the NaN scores 0 and
    leaves the other scores as they would be without it. *)
Example missing_value_run :
  let X := column [dec 1; np.nan; dec 3; dec 5] in
  let s := detector (Float (dec 3.5)) (dec 0.1) in
  fst (fit X None s) = Ok tt /\
  median_ (snd (fit X None s)) = Some (Some (dec 3)) /\
  median_diff_ (snd (fit X None s)) = Some (Some (dec 2)) /\
  option_map (@np.data _) (decision_scores_ (snd (fit X None s)))
    = Some [dec 0.6745; dec 0; dec 0; dec 0.6745].
Proof.
  intros X s.
  rewrite (fit_column X None s) by (exists 3; reflexivity).
  cbn [fst snd fitted median_ median_diff_ decision_scores_ option_map].
  split; [reflexivity|]. split; [float_eq|]. split; [float_eq|].
  f_equal. unfold scores_with. cbn [np.data]. float_eq.
Qed.

(** * Shape of the input (C4, C6) *)

(** C4 (the code departs from the claim).  The claim: a flat one-dimensional
    numeric sequence passes the dimensionality check of [fit] and
    [decision_function] and is treated as a single column.  In the code the
    validator does let every such sequence through, but [_check_dim] then
    reads [X.shape[1]] of a one-element shape tuple: both methods raise
    [IndexError] and leave the instance untouched. *)
Theorem flat_sequence_raises_IndexError :
  forall (n : nat) (l : list np.float64) (y : option (list Z)) (s : MAD),
    let X := np.mk_ndarray [S n] l in
    sklearn.check_array X = Ok X /\
    fit X y s = (Raise (IndexError "tuple index out of range"), s) /\
    decision_function X s =
      (Raise (IndexError "tuple index out of range"), s).
Proof. intros n l y s X. repeat split. Qed.

(** C6.  A two-dimensional input with at least one sample and more than one
    feature column makes both [fit] and [decision_function] raise the
    dimensionality [ValueError], whose message carries the feature count in
    decimal (["2"] for two features), before anything is written; with
    exactly one feature column neither method raises that error. *)
Theorem dimensionality_error_reports_feature_count :
  forall (X : np.ndarray np.float64) (n k : nat) (y : option (list Z))
         (s : MAD),
    np.shape X = [S n; k] ->
    (1 < k ->
       fit X y s = (Raise (ValueError (dim_message k)), s) /\
       decision_function X s = (Raise (ValueError (dim_message k)), s)) /\
    (k = 1 ->
       forall k', fst (fit X y s) <> Raise (ValueError (dim_message k')) /\
                  fst (decision_function X s)
                    <> Raise (ValueError (dim_message k'))) /\
    dim_message k =
      ("MAD algorithm is just for univariate data. Got Data with "
         ++ NilEmpty.string_of_uint (Nat.to_uint k) ++ " Dimensions.")%string /\
    dim_message 2 =
      "MAD algorithm is just for univariate data. Got Data with 2 Dimensions."%string.
Proof.
  intros X n k y s HX. repeat split.
  - unfold fit, sklearn.check_array. run. rewrite HX.
    destruct k as [|[|k]]; try lia. cbn [Nat.eqb].
    unfold _check_dim, shape_1. rewrite HX. reflexivity.
  - unfold decision_function, sklearn.check_array. run. rewrite HX.
    destruct k as [|[|k]]; try lia. cbn [Nat.eqb].
    unfold _check_dim, shape_1. rewrite HX. reflexivity.
  - subst k. rewrite fit_column by (exists n; assumption). discriminate.
  - subst k. unfold decision_function. run.
    rewrite check_array_column, _check_dim_column by (exists n; assumption).
    destruct (median_ s) as [c1|] eqn:H1.
    + destruct (median_diff_ s) as [c2|] eqn:H2.
      * rewrite (_mad_run X _ _ _ H1 H2). discriminate.
      * unfold _mad. run. rewrite H1. run. rewrite H2. discriminate.
    + rewrite (_mad_unset X _ H1). discriminate.
Qed.

Lemma dimensionality_error_two_features :
  let X := np.mk_ndarray [2; 2] [dec 0; dec 0; dec 0; dec 0] in
  let s := detector (Float (dec 3.5)) (dec 0.1) in
  np.shape X = [2; 2] /\
  fit X None s = (Raise (ValueError (dim_message 2)), s) /\
  decision_function X s = (Raise (ValueError (dim_message 2)), s).
Proof.
  intros X s. split; [reflexivity|].
  apply (dimensionality_error_reports_feature_count X 1 2 None s);
    [reflexivity | lia].
Defined.

(** * Calling order (C5) *)

(** C5 (the code departs from the claim).  The claim: [decision_function]
    may run on a freshly constructed detector and then computes and caches
    the statistics from its argument.  In the code [__init__] assigns only
    [threshold] (and the base class [contamination]); the first thing
    [_mad] does is read [self.median_], which does not exist yet, so on
    every valid column the call raises [AttributeError] and caches nothing. *)
Theorem score_before_fit_raises_AttributeError :
  forall (t : number) (c : np.float64) (n : nat) (l : list np.float64),
    let X := np.mk_ndarray [S n; 1] l in
    decision_function X (detector t c) =
      (Raise (AttributeError "'MAD' object has no attribute 'median_'"),
       detector t c) /\
    (forall o det, __init__ o c = Ok det ->
                   exists t', as_number o = Some t' /\ det = detector t' c) /\
    __init__ (PyFloat (dec 3.5)) (dec 0.1)
      = Ok (detector (Float (dec 3.5)) (dec 0.1)).
Proof.
  intros t c n l X. split; [reflexivity|]. split; [|reflexivity].
  intros o det. unfold __init__.
  destruct (as_number o) as [t'|]; [|discriminate].
  intros [= <-]. exists t'. split; reflexivity.
Qed.

(** * Failure of [fit] (C9) *)

(** A fitted detector handed a 2 x 2 array raises the dimensionality error
    and still holds the median of its last successful [fit]. *)
Lemma failed_fit_keeps_caches_counterexample : ~ failed_fit_resets_caches.
Proof.
  intros H.
  pose (X0 := column [dec 1; dec 2; dec 3]).
  pose (s := fitted X0 None (detector (Float (dec 3.5)) (dec 0.1))).
  pose (X := np.mk_ndarray [2%nat; 2%nat] [dec 0; dec 0; dec 0; dec 0]).
  destruct (H X None s (ValueError (dim_message 2)) s eq_refl) as [Hreset _].
  destruct (Hreset eq_refl) as [Hm _].
  discriminate Hm.
Qed.

Lemma check_array_same X X' : sklearn.check_array X = Ok X' -> X' = X.
Proof.
  unfold sklearn.check_array.
  destruct (np.shape X) as [|a [|b [|? ?]]]; try discriminate;
    repeat match goal with
           | |- context [if ?c then _ else _] => destruct c
           end; try discriminate; now intros [= <-].
Qed.

Lemma fit_is_fit_with X y : fit X y = fit_with _set_n_classes X y.
Proof. reflexivity. Qed.

(** On a column, [fit_with] is decided by the base-class method alone. *)
Lemma fit_with_column {Y} (set_n_classes : Y -> method MAD unit) X y s :
  single_column X ->
  fit_with set_n_classes X y s =
    match set_n_classes y s with
    | (Ok _, s1) => (Ok tt, fitted_from X s1)
    | (Raise e, s1) => (Raise e, s1)
    end.
Proof.
  intros HX. unfold fit_with. run.
  rewrite (check_array_column _ HX), (_check_dim_column _ HX).
  destruct (set_n_classes y s) as [[[]|e] s1]; [|reflexivity].
  erewrite decision_function_run; eauto; try reflexivity.
  erewrite _mad_run; try reflexivity.
  unfold _process_decision_scores. run.
  unfold fitted_from, labels_of, scores_with, np.ravel, np.elementwise. run.
  rewrite !length_map. reflexivity.
Qed.

(** Anything but a column is turned away by one of the two checks, before
    the base-class method is reached. *)
Lemma fit_with_rejects {Y} (set_n_classes : Y -> method MAD unit) X y s :
  ~ single_column X ->
  exists e,
    fit_with set_n_classes X y s = (Raise e, s) /\
    (sklearn.check_array X = Raise e \/
     (sklearn.check_array X = Ok X /\ _check_dim X = Raise e)).
Proof.
  intros HX. unfold fit_with. run.
  destruct (sklearn.check_array X) as [X'|e] eqn:Hc.
  - pose proof (check_array_same X X' Hc) as ->.
    destruct (_check_dim X) as [[]|e] eqn:Hd.
    + exfalso. apply HX. exact (proj2 (checks_pass_inv X X Hc Hd)).
    + exists e. split; [reflexivity | right; split; reflexivity].
  - exists e. split; [reflexivity | now left].
Qed.

Lemma single_column_dec X : single_column X \/ ~ single_column X.
Proof.
  destruct (sklearn.check_array X) as [X'|e] eqn:Hc.
  - pose proof (check_array_same X X' Hc) as ->.
    destruct (_check_dim X) as [[]|e] eqn:Hd.
    + left. exact (proj2 (checks_pass_inv X X Hc Hd)).
    + right. intros HX. rewrite (_check_dim_column _ HX) in Hd. discriminate.
  - right. intros HX. rewrite (check_array_column _ HX) in Hc. discriminate.
Qed.

(** C9 (amended).  A [fit] that fails in input validation or in the
    dimensionality check leaves the whole instance exactly as it was: both
    run before anything is written.  The only other place where [fit] can
    fail is the base-class call [_set_n_classes(y)] of line 81, which runs
    after the two checks and before the reset; so whenever that method
    leaves the caches alone, no failing [fit] changes the cached median and
    median absolute deviation.  In particular a [fit] that fails with a
    dimensionality error leaves the previously cached statistics in place;
    they are reset only once [fit] can no longer fail. *)
Theorem failed_fit_never_changes_caches :
  forall (Y : Type) (set_n_classes : Y -> method MAD unit),
    keeps_caches set_n_classes ->
    forall X y s e s',
      fit_with set_n_classes X y s = (Raise e, s') ->
      median_ s' = median_ s /\
      median_diff_ s' = median_diff_ s /\
      ((sklearn.check_array X = Raise e /\ s' = s) \/
       (sklearn.check_array X = Ok X /\ _check_dim X = Raise e /\ s' = s) \/
       (single_column X /\ set_n_classes y s = (Raise e, s'))).
Proof.
  intros Y set_n_classes Hkeep X y s e s' Hfail.
  destruct (single_column_dec X) as [HX|HX].
  - rewrite (fit_with_column set_n_classes X y s HX) in Hfail.
    destruct (set_n_classes y s) as [[[]|e1] s1] eqn:Hset; [discriminate|].
    injection Hfail as <- <-.
    destruct (Hkeep y s) as [Hm Hd]. rewrite Hset in Hm, Hd.
    split; [exact Hm|]. split; [exact Hd|]. right. right. auto.
  - destruct (fit_with_rejects set_n_classes X y s HX) as (e1 & Hrun & Hwhy).
    rewrite Hrun in Hfail. injection Hfail as <- <-.
    split; [reflexivity|]. split; [reflexivity|].
    destruct Hwhy as [Hc|[Hc Hd]]; [left | right; left]; auto.
Qed.

(** A base-class method that raises on the label argument [true], after it
    has written [_classes], as the framework does for labels that are not
    class-like. *)
Lemma failed_fit_never_changes_caches_witness :
  let base := fun (y : bool) (s : MAD) =>
                if y
                then (Raise (ValueError "Unknown label type"),
                      set__classes 2 s)
                else (Ok tt, set__classes 2 s) in
  let X0 := column [dec 1; dec 2; dec 3] in
  let s := snd (fit_with base X0 false
                  (detector (Float (dec 3.5)) (dec 0.1))) in
  let bad := np.mk_ndarray [2; 2] [dec 0; dec 0; dec 0; dec 0] in
  let X := column [dec 7; dec 8; dec 30] in
  keeps_caches base /\
  (fit_with base bad false s = (Raise (ValueError (dim_message 2)), s) /\
   median_ s = Some (Some (np.nanmedian (np.reshape_col X0)))) /\
  (fit_with base X true s
     = (Raise (ValueError "Unknown label type"), set__classes 2 s) /\
   median_ (set__classes 2 s) = median_ s /\
   median_diff_ (set__classes 2 s) = median_diff_ s).
Proof.
  intros base X0 s bad X.
  assert (Hkeep : keeps_caches base).
  { intros y s1. unfold base. destruct y; split; reflexivity. }
  split; [exact Hkeep|]. split.
  - split; reflexivity.
  - assert (Hrun : fit_with base X true s
                   = (Raise (ValueError "Unknown label type"),
                      set__classes 2 s)) by reflexivity.
    split; [exact Hrun|].
    destruct (failed_fit_never_changes_caches bool base Hkeep X true s _ _
                Hrun) as (Hm & Hd & _).
    split; assumption.
Defined.

(** * Caching (C2) *)

Lemma decision_function_ok_inv X s scores s' :
  decision_function X s = (Ok scores, s') ->
  exists c1 c2,
    single_column X /\ median_ s = Some c1 /\ median_diff_ s = Some c2 /\
    _mad X s = (Ok scores, s').
Proof.
  unfold decision_function. run.
  destruct (sklearn.check_array X) as [X'|e] eqn:Hc; [|discriminate].
  destruct (_check_dim X') as [[]|e] eqn:Hd; [|discriminate].
  destruct (checks_pass_inv X _ Hc Hd) as [-> HX]. intros H.
  destruct (median_ s) as [c1|] eqn:H1.
  - destruct (median_diff_ s) as [c2|] eqn:H2.
    + exists c1, c2. auto.
    + revert H. unfold _mad. run. rewrite H1. run. rewrite H2. discriminate.
  - rewrite (_mad_unset X _ H1) in H. discriminate.
Qed.

(** With both caches populated a scoring call, returning or raising, leaves
    the instance as it found it. *)
Lemma decision_function_keeps_state Y s m d :
  median_ s = Some (Some m) -> median_diff_ s = Some (Some d) ->
  snd (decision_function Y s) = s.
Proof.
  intros H1 H2.
  destruct (decision_function Y s) as [[scores|e] s'] eqn:Hrun; cbn [snd].
  - destruct (decision_function_ok_inv _ _ _ _ Hrun) as (c1 & c2 & HY & _).
    rewrite (decision_function_cached Y s m d HY H1 H2) in Hrun.
    now injection Hrun.
  - apply (decision_function_state Y s) with (e := e); [|assumption].
    rewrite H1, H2. split; discriminate.
Qed.

Lemma score_all_keeps_state Ys : forall s m d,
  median_ s = Some (Some m) -> median_diff_ s = Some (Some d) ->
  score_all Ys s = s.
Proof.
  induction Ys as [|Y Ys IH]; intros s m d H1 H2; [reflexivity|].
  unfold score_all. cbn [fold_left].
  rewrite (decision_function_keeps_state Y s m d H1 H2).
  exact (IH s m d H1 H2).
Qed.

(** C2.  After a successful [fit X] the instance holds a cached median and
    median absolute deviation; [decision_function X] on it returns exactly
    [decision_scores_]; any number of later scoring calls, on any inputs,
    leave both caches as [fit] set them and score with them; only a further
    successful [fit] replaces them, by the statistics of its own column. *)
Theorem score_after_fit_reuses_caches :
  forall X y s s',
    fit X y s = (Ok tt, s') ->
    exists m d scores,
      median_ s' = Some (Some m) /\
      median_diff_ s' = Some (Some d) /\
      decision_scores_ s' = Some scores /\
      decision_function X s' = (Ok scores, s') /\
      (forall Ys,
         median_ (score_all Ys s') = Some (Some m) /\
         median_diff_ (score_all Ys s') = Some (Some d)) /\
      (forall Ys Y,
         single_column Y ->
         decision_function Y (score_all Ys s')
           = (Ok (scores_with m d Y), score_all Ys s')) /\
      (forall X2 y2 s2,
         fit X2 y2 s' = (Ok tt, s2) ->
         let m2 := np.nanmedian (np.reshape_col X2) in
         median_ s2 = Some (Some m2) /\
         median_diff_ s2 = Some (Some (np.nanmedian (abs_deviations m2 X2)))).
Proof.
  intros X y s s' Hfit.
  destruct (fit_cases X y s) as [[HX Hok]|[_ [e He]]];
    [|rewrite He in Hfit; discriminate].
  rewrite Hok in Hfit. injection Hfit as <-.
  set (m := np.nanmedian (np.reshape_col X)).
  set (d := np.nanmedian (abs_deviations m X)).
  exists m, d, (scores_with m d X).
  assert (H1 : median_ (fitted X y s) = Some (Some m)) by reflexivity.
  assert (H2 : median_diff_ (fitted X y s) = Some (Some d)) by reflexivity.
  repeat split; try reflexivity.
  - exact (decision_function_cached X _ m d HX H1 H2).
  - now rewrite (score_all_keeps_state Ys _ m d H1 H2).
  - now rewrite (score_all_keeps_state Ys _ m d H1 H2).
  - intros Ys Y HY. rewrite (score_all_keeps_state Ys _ m d H1 H2).
    exact (decision_function_cached Y _ m d HY H1 H2).
  - destruct (fit_cases X2 y2 (fitted X y s)) as [[_ Hok2]|[_ [e He]]];
      rewrite H in *; [|discriminate].
    injection Hok2 as ->. reflexivity.
  - destruct (fit_cases X2 y2 (fitted X y s)) as [[_ Hok2]|[_ [e He]]];
      rewrite H in *; [|discriminate].
    injection Hok2 as ->. reflexivity.
Qed.

Lemma score_after_fit_reuses_caches_witness :
  let X := column [dec 1; dec 2; dec 3; dec 4; dec 5; dec 100] in
  let s := detector (Float (dec 3.5)) (dec 0.1) in
  fit X None s = (Ok tt, fitted X None s) /\
  exists m d scores,
    median_ (fitted X None s) = Some (Some m) /\
    median_diff_ (fitted X None s) = Some (Some d) /\
    decision_scores_ (fitted X None s) = Some scores /\
    decision_function X (fitted X None s) = (Ok scores, fitted X None s).
Proof.
  intros X s.
  assert (Hfit : fit X None s = (Ok tt, fitted X None s))
    by (apply fit_column; exists 5; reflexivity).
  split; [exact Hfit|].
  destruct (score_after_fit_reuses_caches X None s _ Hfit)
    as (m & d & scores & H1 & H2 & H3 & H4 & _).
  exists m, d, scores. auto.
Defined.

(** * Labels (C8) *)

(** C8.  After [fit] the label of observation [i] is 1 exactly when its
    decision score is strictly greater than the configured threshold and 0
    otherwise, position by position; scores [0.1, 1.0, 5.0] with threshold
    3.5 give labels [0, 0, 1]. *)
Theorem labels_follow_threshold :
  (forall X y s s',
     fit X y s = (Ok tt, s') ->
     exists scores labels,
       decision_scores_ s' = Some scores /\
       labels_ s' = Some labels /\
       length (np.data labels) = length (np.data scores) /\
       forall i score,
         nth_error (np.data scores) i = Some score ->
         exists label,
           nth_error (np.data labels) i = Some label /\
           (label = 1%Z <->
              np.greater score (to_float64 (threshold s')) = true) /\
           (label = 0%Z <->
              np.greater score (to_float64 (threshold s')) = false)) /\
  (let s := set_decision_scores_
              (np.mk_ndarray [3] [dec 0.1; dec 1.0; dec 5.0])
              (detector (Float (dec 3.5)) (dec 0.1)) in
   fst (_process_decision_scores s) = Ok tt /\
   labels_ (snd (_process_decision_scores s))
     = Some (np.mk_ndarray [3] [0%Z; 0%Z; 1%Z])).
Proof.
  split.
  - intros X y s s' Hfit.
    destruct (fit_cases X y s) as [[HX Hok]|[_ [e He]]];
      [|rewrite He in Hfit; discriminate].
    rewrite Hok in Hfit. injection Hfit as <-.
    eexists. eexists. split; [reflexivity|]. split; [reflexivity|].
    split; [unfold labels_of; cbn [np.data]; apply length_map|].
    intros i score Hi. unfold labels_of. cbn [np.data threshold fitted].
    rewrite nth_error_map, Hi. cbn [option_map].
    eexists. split; [reflexivity|].
    destruct (np.greater score (to_float64 (threshold s)));
      split; split; intros; congruence.
  - split; reflexivity.
Qed.

Lemma labels_follow_threshold_witness :
  let X := column [dec 1; dec 2; dec 3; dec 4; dec 5; dec 100] in
  let s := detector (Float (dec 3.5)) (dec 0.1) in
  fit X None s = (Ok tt, fitted X None s) /\
  exists scores labels,
    decision_scores_ (fitted X None s) = Some scores /\
    labels_ (fitted X None s) = Some labels /\
    length (np.data labels) = length (np.data scores).
Proof.
  intros X s.
  assert (Hfit : fit X None s = (Ok tt, fitted X None s))
    by (apply fit_column; exists 5; reflexivity).
  split; [exact Hfit|].
  destruct (proj1 labels_follow_threshold X None s _ Hfit)
    as (scores & labels & H1 & H2 & H3 & _).
  exists scores, labels. auto.
Defined.

(** * The score formula (C1) *)

Lemma nan_to_num1_finite z : np.isfinite z = true -> np.nan_to_num1 z = z.
Proof. destruct z; simpl; try discriminate; reflexivity. Qed.

(** For the column [1, 1] the median is 1 and the median absolute deviation
    0, so the quotient is 0/0 = NaN, while the score is 0. *)
Lemma zero_mad_score_counterexample : ~ scores_equal_modified_z_scores.
Proof.
  intros H.
  pose (X := column [dec 1; dec 1]).
  pose (s := detector (Float (dec 3.5)) (dec 0.1)).
  assert (Hfit : fit X None s = (Ok tt, fitted X None s))
    by (apply fit_column; exists 1; reflexivity).
  assert (H1 : median_ (fitted X None s) = Some (Some (dec 1)))
    by (cbn [fitted median_]; float_eq).
  assert (H2 : median_diff_ (fitted X None s) = Some (Some (dec 0)))
    by (cbn [fitted median_diff_]; float_eq).
  specialize (H X None s _ _ _ _ Hfit H1 H2 eq_refl 0 (dec 1) eq_refl).
  vm_compute in H. discriminate H.
Qed.

(** C1 (amended).  After [fit] on a single column the cached median is the
    NaN-ignoring median of the column, the cached median absolute deviation
    is the NaN-ignoring median of the absolute deviations, and the score of
    observation [i] is [0.6745 * |x_i - median| / mad] passed through
    [np.nan_to_num]: it equals that quotient whenever the quotient is a
    finite number.  For the column [1, 2, 3, 4, 5, 100] with the default
    threshold 3.5: median 3.5, deviations [2.5, 1.5, 0.5, 0.5, 1.5, 96.5],
    median of deviations 1.5, scores 6745/6000, 0.6745, 1349/6000,
    1349/6000, 0.6745 and 260357/6000, each within 0.01 of 1.124, 0.674,
    0.225, 0.225, 0.674 and 43.40, labels [0, 0, 0, 0, 0, 1]. *)
Theorem fit_scores_are_modified_z_scores :
  (forall X y s s',
     fit X y s = (Ok tt, s') ->
     let m := np.nanmedian (np.reshape_col X) in
     let d := np.nanmedian (abs_deviations m X) in
     median_ s' = Some (Some m) /\
     median_diff_ s' = Some (Some d) /\
     exists scores,
       decision_scores_ s' = Some scores /\
       length (np.data scores) = length (np.data X) /\
       forall i x,
         nth_error (np.data X) i = Some x ->
         nth_error (np.data scores) i
           = Some (np.nan_to_num1 (modified_z_score m d x)) /\
         (np.isfinite (modified_z_score m d x) = true ->
          nth_error (np.data scores) i = Some (modified_z_score m d x))) /\
  (let X := column [dec 1; dec 2; dec 3; dec 4; dec 5; dec 100] in
   let s := detector (Float (dec 3.5)) (dec 0.1) in
   fst (fit X None s) = Ok tt /\
   median_ (snd (fit X None s)) = Some (Some (dec 3.5)) /\
   np.data (abs_deviations (dec 3.5) X)
     = [dec 2.5; dec 1.5; dec 0.5; dec 0.5; dec 1.5; dec 96.5] /\
   median_diff_ (snd (fit X None s)) = Some (Some (dec 1.5)) /\
   (exists scores,
      decision_scores_ (snd (fit X None s)) = Some scores /\
      np.data scores
        = [dec (6745 # 6000); dec 0.6745; dec (1349 # 6000);
           dec (1349 # 6000); dec 0.6745; dec (260357 # 6000)] /\
      all_close 0.01 [1.124; 0.674; 0.225; 0.225; 0.674; 43.40]%Q
        (np.data scores) = true) /\
   labels_ (snd (fit X None s))
     = Some (np.mk_ndarray [6] [0%Z; 0%Z; 0%Z; 0%Z; 0%Z; 1%Z])).
Proof.
  split.
  - intros X y s s' Hfit m d.
    destruct (fit_cases X y s) as [[HX Hok]|[_ [e He]]];
      [|rewrite He in Hfit; discriminate].
    rewrite Hok in Hfit. injection Hfit as <-.
    split; [reflexivity|]. split; [reflexivity|].
    exists (scores_with m d X). split; [reflexivity|].
    split; [apply length_map|].
    intros i x Hi.
    assert (Hs : nth_error (np.data (scores_with m d X)) i
                 = Some (np.nan_to_num1 (modified_z_score m d x))).
    { unfold scores_with. cbn [np.data]. rewrite nth_error_map, Hi.
      reflexivity. }
    split; [exact Hs|].
    intros Hfin. rewrite Hs. now rewrite nan_to_num1_finite.
  - intros X s.
    assert (Hfit : fit X None s = (Ok tt, fitted X None s))
      by (apply fit_column; exists 5; reflexivity).
    rewrite Hfit. cbn [fst snd].
    split; [reflexivity|].
    split; [cbn [fitted median_]; float_eq|].
    split; [float_eq|].
    split; [cbn [fitted median_diff_]; float_eq|].
    split; [|vm_compute; reflexivity].
    eexists. split; [reflexivity|].
    split; [float_eq|].
    repeat split; vm_compute; reflexivity.
Qed.

Lemma fit_scores_are_modified_z_scores_witness :
  let X := column [dec 1; dec 2; dec 3; dec 4; dec 5; dec 100] in
  let s := detector (Float (dec 3.5)) (dec 0.1) in
  let m := np.nanmedian (np.reshape_col X) in
  let d := np.nanmedian (abs_deviations m X) in
  fit X None s = (Ok tt, fitted X None s) /\
  nth_error (np.data X) 5 = Some (dec 100) /\
  np.isfinite (modified_z_score m d (dec 100)) = true /\
  exists scores,
    decision_scores_ (fitted X None s) = Some scores /\
    nth_error (np.data scores) 5 = Some (modified_z_score m d (dec 100)).
Proof.
  intros X s m d.
  assert (Hfit : fit X None s = (Ok tt, fitted X None s))
    by (apply fit_column; exists 5; reflexivity).
  assert (Hx : nth_error (np.data X) 5 = Some (dec 100)) by reflexivity.
  assert (Hz : np.isfinite (modified_z_score m d (dec 100)) = true)
    by (vm_compute; reflexivity).
  split; [exact Hfit|]. split; [exact Hx|]. split; [exact Hz|].
  destruct (proj1 fit_scores_are_modified_z_scores X None s _ Hfit)
    as (_ & _ & scores & Hs & _ & Hall).
  exists scores. split; [exact Hs|].
  exact (proj2 (Hall 5 (dec 100) Hx) Hz).
Defined.

(** * Arithmetic of values *)

Section Rationals.

Local Open Scope Qc_scope.

Lemma Qc_nonneg_plus (a b : Qc) : 0 <= a -> 0 <= b -> 0 <= a + b.
Proof.
  intros Ha Hb. rewrite <- (Qcplus_0_l 0). now apply Qcplus_le_compat.
Qed.

Lemma Qc_nonneg_mult (a b : Qc) : 0 <= a -> 0 <= b -> 0 <= a * b.
Proof.
  intros Ha Hb. rewrite <- (Qcmult_0_l b). now apply Qcmult_le_compat_r.
Qed.

Lemma Qc_nonneg_inv (b : Qc) : 0 <= b -> 0 <= / b.
Proof.
  unfold Qcle, Qcinv. cbn [this Q2Qc]. rewrite !Qred_correct.
  apply Qinv_le_0_compat.
Qed.

Lemma Qc_nonneg_div (a b : Qc) : 0 <= a -> 0 <= b -> 0 <= a / b.
Proof.
  intros Ha Hb. unfold Qcdiv.
  apply Qc_nonneg_mult; [assumption | now apply Qc_nonneg_inv].
Qed.

Lemma Qc_nonneg_compare (q : Qc) : 0 <= q -> (q ?= 0) <> Lt.
Proof. intros H. now apply Qcge_alt. Qed.

Lemma Qc_of_nat_nonneg (n : nat) : 0 <= Q2Qc (inject_Z (Z.of_nat n)).
Proof.
  unfold Qcle. cbn [this Q2Qc]. rewrite !Qred_correct.
  unfold Qle. simpl. lia.
Qed.

Lemma Qc_of_nat_1 : Q2Qc (inject_Z (Z.of_nat 1)) = 1.
Proof. apply Qc_is_canon. reflexivity. Qed.

Lemma Qc_of_nat_2 : Q2Qc (inject_Z (Z.of_nat 2)) = 1 + 1.
Proof. apply Qc_is_canon. reflexivity. Qed.

Lemma Qc_over_one (q : Qc) : (0 + q) / 1 = q.
Proof. field. exact Q_apart_0_1. Qed.

Lemma Qc_half_sum (q : Qc) : (0 + q + q) / (1 + 1) = q.
Proof. field. intros H. apply (f_equal this) in H. discriminate H. Qed.

Lemma Qcabs_0 : Qcabs 0 = 0.
Proof. apply Qcabs_pos. apply Qcle_refl. Qed.

Lemma coef_nonneg : 0 <= Q2Qc (6745 # 10000).
Proof. unfold Qcle, Qle. simpl. lia. Qed.

Lemma float64_max_nonneg : 0 <= np.float64_max.
Proof.
  unfold np.float64_max, Qcle. cbn [this Q2Qc]. rewrite !Qred_correct.
  unfold Qle, inject_Z. cbn [Qnum Qden]. lia.
Qed.

End Rationals.

Lemma absolute_nonneg x : nonneg_or_nan (np.absolute x).
Proof. destruct x; simpl; auto. apply Qcabs_nonneg. Qed.

Lemma add_nonneg x y :
  nonneg_or_nan x -> nonneg_or_nan y -> nonneg_or_nan (np.add x y).
Proof.
  destruct x, y; simpl; auto. apply Qc_nonneg_plus.
Qed.

Lemma multiply_coef_nonneg x :
  nonneg_or_nan x -> nonneg_or_nan (np.multiply coef x).
Proof.
  destruct x; simpl; auto. intros H.
  apply Qc_nonneg_mult; [exact coef_nonneg | exact H].
Qed.

Lemma of_sign_sgn_nonneg x :
  nonneg_or_nan x -> nonneg_or_nan (np.of_sign (np.sgn x)).
Proof.
  destruct x; simpl; auto. intros H.
  pose proof (Qc_nonneg_compare q H) as Hc.
  destruct (q ?= 0)%Qc; simpl; auto.
Qed.

Lemma true_divide_nonneg x y :
  nonneg_or_nan x -> nonneg_or_nan y -> nonneg_or_nan (np.true_divide x y).
Proof.
  destruct x as [| | |a], y as [| | |b]; simpl; auto; try contradiction.
  - intros _ Hb. pose proof (Qc_nonneg_compare b Hb) as Hc.
    destruct (b ?= 0)%Qc; simpl; auto.
  - intros _ _. apply Qcle_refl.
  - intros Ha Hb. destruct (Qc_eq_bool b 0).
    + exact (of_sign_sgn_nonneg (np.fin a) Ha).
    + simpl. now apply Qc_nonneg_div.
Qed.

Lemma nan_to_num1_nonneg x :
  nonneg_or_nan x -> finite_nonneg (np.nan_to_num1 x).
Proof.
  destruct x; simpl; intros H.
  - apply Qcle_refl.
  - exact float64_max_nonneg.
  - contradiction.
  - exact H.
Qed.

Lemma modified_z_score_nonneg m d x :
  nonneg_or_nan d -> nonneg_or_nan (modified_z_score m d x).
Proof.
  intros Hd. unfold modified_z_score.
  apply true_divide_nonneg; [|exact Hd].
  apply multiply_coef_nonneg, absolute_nonneg.
Qed.

(** * The median keeps the sign *)

Section SortedPart.

Variable P : np.float64 -> Prop.

Lemma insert_Forall x l : P x -> Forall P l -> Forall P (np.insert x l).
Proof.
  intros Hx. induction 1 as [|y l Hy Hl IH]; simpl.
  - auto.
  - destruct (np.less_equal x y); auto.
Qed.

Lemma sort_Forall l : Forall P l -> Forall P (np.sort l).
Proof.
  induction 1 as [|x l Hx Hl IH]; simpl; [constructor|].
  now apply insert_Forall.
Qed.

Lemma firstn_Forall n : forall l, Forall P l -> Forall P (firstn n l).
Proof.
  induction n as [|n IH]; intros l Hl; [constructor|].
  destruct Hl; simpl; auto.
Qed.

Lemma skipn_Forall n : forall l, Forall P l -> Forall P (skipn n l).
Proof.
  induction n as [|n IH]; intros l Hl; [exact Hl|].
  destruct Hl; simpl; auto.
Qed.

Lemma slice_Forall lo hi l : Forall P l -> Forall P (np.slice lo hi l).
Proof. intros Hl. unfold np.slice. now apply firstn_Forall, skipn_Forall. Qed.

Lemma filter_Forall f l : Forall P l -> Forall P (filter f l).
Proof.
  induction 1 as [|x l Hx Hl IH]; simpl; [constructor|].
  destruct (f x); auto.
Qed.

End SortedPart.

Lemma fold_add_nonneg l : forall acc,
  nonneg_or_nan acc -> Forall nonneg_or_nan l ->
  nonneg_or_nan (fold_left np.add l acc).
Proof.
  induction l as [|x l IH]; intros acc Hacc Hl; simpl; [exact Hacc|].
  inversion Hl; subst. apply IH; [|assumption]. now apply add_nonneg.
Qed.

Lemma mean_nonneg l : Forall nonneg_or_nan l -> nonneg_or_nan (np.mean l).
Proof.
  intros Hl. unfold np.mean, np.sum. apply true_divide_nonneg.
  - apply fold_add_nonneg; [apply Qcle_refl | exact Hl].
  - apply Qc_of_nat_nonneg.
Qed.

Lemma median_nonneg l : Forall nonneg_or_nan l -> nonneg_or_nan (np.median l).
Proof.
  intros Hl. unfold np.median.
  destruct (Nat.odd _); apply mean_nonneg, slice_Forall, sort_Forall, Hl.
Qed.

Lemma nanmedian_nonneg a :
  Forall nonneg_or_nan (np.data a) -> nonneg_or_nan (np.nanmedian a).
Proof.
  intros Ha. unfold np.nanmedian.
  pose proof (filter_Forall nonneg_or_nan
                (fun x => negb (np.isnan x)) _ Ha) as Hf.
  destruct (filter _ (np.data a)) as [|x l] eqn:E; [exact I|].
  now apply median_nonneg.
Qed.

Lemma abs_deviations_nonneg m X :
  Forall nonneg_or_nan (np.data (abs_deviations m X)).
Proof.
  unfold abs_deviations, np.abs, np.elementwise, np.reshape_col.
  cbn [np.data]. rewrite map_map. apply Forall_forall.
  intros z Hz. apply in_map_iff in Hz. destruct Hz as [x [<- _]].
  apply absolute_nonneg.
Qed.

Lemma scores_with_finite_nonneg m d X :
  nonneg_or_nan d -> Forall finite_nonneg (np.data (scores_with m d X)).
Proof.
  intros Hd. unfold scores_with. cbn [np.data]. apply Forall_forall.
  intros z Hz. apply in_map_iff in Hz. destruct Hz as [x [<- _]].
  now apply nan_to_num1_nonneg, modified_z_score_nonneg.
Qed.

(** * Scores are finite and not negative (C10) *)

Lemma fitted_well_formed X y s : well_formed (fitted X y s).
Proof.
  unfold well_formed, fitted.
  cbn [median_ median_diff_ decision_scores_].
  split; [split; discriminate|]. split.
  - intros d [= <-]. apply nanmedian_nonneg, abs_deviations_nonneg.
  - intros scores [= <-]. apply scores_with_finite_nonneg.
    apply nanmedian_nonneg, abs_deviations_nonneg.
Qed.

Lemma _mad_nonneg X s scores s' :
  well_formed s -> _mad X s = (Ok scores, s') ->
  Forall finite_nonneg (np.data scores) /\ well_formed s'.
Proof.
  intros (Hboth & Hd & Hs) Hrun.
  destruct (median_ s) as [c1|] eqn:H1;
    [|rewrite (_mad_unset X _ H1) in Hrun; discriminate].
  destruct (median_diff_ s) as [c2|] eqn:H2;
    [|destruct Hboth as [_ Hb]; specialize (Hb eq_refl); discriminate].
  rewrite (_mad_run X _ _ _ H1 H2) in Hrun.
  injection Hrun as <- <-.
  assert (Hnn : nonneg_or_nan
                  match c2 with
                  | Some d => d
                  | None =>
                      np.nanmedian
                        (abs_deviations
                           match c1 with
                           | Some m => m
                           | None => np.nanmedian (np.reshape_col X)
                           end X)
                  end).
  { destruct c2 as [d|]; [now apply Hd|].
    apply nanmedian_nonneg, abs_deviations_nonneg. }
  split; [now apply scores_with_finite_nonneg|].
  unfold well_formed.
  cbn [median_ median_diff_ decision_scores_ set_median_ set_median_diff_].
  split; [split; discriminate|]. split.
  - now intros d [= <-].
  - exact Hs.
Qed.

Lemma reachable_well_formed s : reachable s -> well_formed s.
Proof.
  induction 1 as [t c s Hinit|X y s Hr IH|X s Hr IH].
  - unfold __init__ in Hinit. destruct (as_number t); [|discriminate].
    injection Hinit as <-. unfold well_formed. cbn.
    split; [tauto|]. split; discriminate.
  - destruct (fit_cases X y s) as [[_ Hok]|[_ [e He]]].
    + rewrite Hok. apply fitted_well_formed.
    + rewrite He. exact IH.
  - destruct (decision_function X s) as [[scores|e] s'] eqn:Hrun; cbn [snd].
    + destruct (decision_function_ok_inv _ _ _ _ Hrun) as (_ & _ & _ & _ & _ & Hm).
      exact (proj2 (_mad_nonneg X s scores s' IH Hm)).
    + rewrite (decision_function_state X s (proj1 IH) e s' Hrun).
      exact IH.
Qed.

(** C10.  On every instance a caller can reach, each entry of a sequence
    returned by [decision_function], and each entry of [decision_scores_]
    once [fit] has stored it, is a finite number greater than or equal to 0;
    a returned sequence has one entry per observation. *)
Theorem scores_are_finite_and_nonnegative :
  forall s,
    reachable s ->
    (forall X scores s',
       decision_function X s = (Ok scores, s') ->
       Forall finite_nonneg (np.data scores) /\
       length (np.data scores) = length (np.data X)) /\
    (forall scores,
       decision_scores_ s = Some scores ->
       Forall finite_nonneg (np.data scores)).
Proof.
  intros s Hr. pose proof (reachable_well_formed s Hr) as Hwf. split.
  - intros X scores s' Hrun.
    destruct (decision_function_ok_inv _ _ _ _ Hrun)
      as (c1 & c2 & _ & H1 & H2 & Hm).
    split; [exact (proj1 (_mad_nonneg X s scores s' Hwf Hm))|].
    rewrite (_mad_run X _ _ _ H1 H2) in Hm. injection Hm as <- _.
    apply length_map.
  - exact (proj2 (proj2 Hwf)).
Qed.

Lemma scores_are_finite_and_nonnegative_witness :
  let X := column [dec 1; dec 2; dec 3; dec 4; dec 5; dec 100] in
  let s0 := detector (Float (dec 3.5)) (dec 0.1) in
  let s := snd (fit X None s0) in
  reachable s /\
  decision_function X s = (Ok (scores_with (dec 3.5) (dec 1.5) X), s) /\
  Forall finite_nonneg (np.data (scores_with (dec 3.5) (dec 1.5) X)).
Proof.
  intros X s0 s.
  assert (Hr : reachable s).
  { apply reach_fit. apply (reach_init (PyFloat (dec 3.5)) (dec 0.1)).
    reflexivity. }
  assert (Hrun : decision_function X s
                 = (Ok (scores_with (dec 3.5) (dec 1.5) X), s)).
  { apply decision_function_cached.
    - exists 5. reflexivity.
    - apply (option_eqb_eq _ (option_eqb_eq _ float64_eqb_eq)).
      vm_compute. reflexivity.
    - apply (option_eqb_eq _ (option_eqb_eq _ float64_eqb_eq)).
      vm_compute. reflexivity. }
  split; [exact Hr|]. split; [exact Hrun|].
  exact (proj1 (proj1 (scores_are_finite_and_nonnegative s Hr) X _ s Hrun)).
Defined.

(** * Replacement of non-finite entries (C3) *)

Lemma true_divide_by_zero y :
  nonneg_or_nan y ->
  np.true_divide y (np.fin 0) = np.nan \/ np.true_divide y (np.fin 0) = np.inf.
Proof.
  destruct y as [| | |a]; simpl; auto; try contradiction.
  intros Ha. change (Qc_eq_bool 0 0) with true. cbn iota.
  pose proof (Qc_nonneg_compare a Ha) as Hc. unfold np.sgn.
  destruct (a ?= 0)%Qc; simpl; auto. congruence.
Qed.

(** For the column [1, 1, 1, 5] the median is 1 and the median absolute
    deviation 0; the last quotient is 2.698/0 = +Infinity and the score
    returned for it is the largest finite double, not 0. *)
Lemma infinite_score_becomes_float64_max : ~ nonfinite_scores_become_zero.
Proof.
  intros H.
  pose (X := column [dec 1; dec 1; dec 1; dec 5]).
  pose (s := fitted X None (detector (Float (dec 3.5)) (dec 0.1))).
  assert (H1 : median_ s = Some (Some (dec 1)))
    by (cbn [s fitted median_]; float_eq).
  assert (H2 : median_diff_ s = Some (Some (dec 0)))
    by (cbn [s fitted median_diff_]; float_eq).
  assert (HX : single_column X) by (exists 3; reflexivity).
  pose proof (decision_function_cached X s _ _ HX H1 H2) as Hrun.
  assert (Hz : np.isfinite (modified_z_score (dec 1) (dec 0) (dec 5)) = false)
    by (vm_compute; reflexivity).
  specialize (H X s _ s _ _ Hrun H1 H2 3 (dec 5) eq_refl Hz).
  vm_compute in H. discriminate H.
Qed.

(** C3 (amended).  In the sequence the scoring routine returns, an entry of
    [0.6745 * diff_i / mad] that is NaN is replaced with 0, an entry that is
    +Infinity with the largest finite double (about 1.8e308) and an entry
    that is -Infinity with its negation; a finite entry is returned as it
    is.  When the median absolute deviation is 0 every entry is NaN or
    +Infinity: the first kind scores 0, the second the largest finite
    double. *)
Theorem nan_to_num_replaces_nonfinite_scores :
  forall X s scores s',
    decision_function X s = (Ok scores, s') ->
    exists m d,
      median_ s' = Some (Some m) /\
      median_diff_ s' = Some (Some d) /\
      forall i x,
        nth_error (np.data X) i = Some x ->
        let z := modified_z_score m d x in
        exists r,
          nth_error (np.data scores) i = Some r /\
          (z = np.nan -> r = np.fin 0) /\
          (z = np.inf -> r = np.fin np.float64_max) /\
          (z = np.ninf -> r = np.fin (- np.float64_max)) /\
          (np.isfinite z = true -> r = z) /\
          (d = np.fin 0 ->
             (z = np.nan /\ r = np.fin 0) \/
             (z = np.inf /\ r = np.fin np.float64_max)).
Proof.
  intros X s scores s' Hrun.
  destruct (decision_function_ok_inv _ _ _ _ Hrun)
    as (c1 & c2 & _ & H1 & H2 & Hm).
  rewrite (_mad_run X _ _ _ H1 H2) in Hm. injection Hm as <- <-.
  eexists. eexists. split; [reflexivity|]. split; [reflexivity|].
  intros i x Hi z. exists (np.nan_to_num1 z).
  split.
  { unfold scores_with. cbn [np.data]. rewrite nth_error_map, Hi.
    reflexivity. }
  repeat split; try (intros ->; reflexivity).
  - apply nan_to_num1_finite.
  - intros Hd. subst z. rewrite Hd. unfold modified_z_score.
    destruct (true_divide_by_zero
                (np.multiply coef
                   (np.absolute
                      (np.subtract x
                         match c1 with
                         | Some m => m
                         | None => np.nanmedian (np.reshape_col X)
                         end))))
      as [E|E]; [apply multiply_coef_nonneg, absolute_nonneg | |];
      rewrite E; [left | right]; split; reflexivity.
Qed.

Lemma nan_to_num_replaces_nonfinite_scores_witness :
  let X := column [dec 1; dec 1; dec 1; dec 5] in
  let s := fitted X None (detector (Float (dec 3.5)) (dec 0.1)) in
  decision_function X s = (Ok (scores_with (dec 1) (dec 0) X), s) /\
  np.data (scores_with (dec 1) (dec 0) X)
    = [np.fin 0; np.fin 0; np.fin 0; np.fin np.float64_max] /\
  exists m d,
    median_ s = Some (Some m) /\ median_diff_ s = Some (Some d).
Proof.
  intros X s.
  assert (Hrun : decision_function X s
                 = (Ok (scores_with (dec 1) (dec 0) X), s)).
  { apply decision_function_cached.
    - exists 3. reflexivity.
    - cbn [s fitted median_]. float_eq.
    - cbn [s fitted median_diff_]. float_eq. }
  split; [exact Hrun|]. split; [float_eq|].
  destruct (nan_to_num_replaces_nonfinite_scores X s _ s Hrun)
    as (m & d & Hm & Hd & _).
  exists m, d. split; assumption.
Defined.

(** * Constant columns (C7) *)

Lemma less_equal_refl c : np.isnan c = false -> np.less_equal c c = true.
Proof.
  destruct c; simpl; try reflexivity; try discriminate.
  intros _. apply Qle_bool_iff, Qle_refl.
Qed.

Lemma sort_repeat c n :
  np.less_equal c c = true -> np.sort (repeat c n) = repeat c n.
Proof.
  intros Hc. induction n as [|n IH]; [reflexivity|].
  cbn [repeat np.sort]. rewrite IH.
  destruct n; cbn [repeat np.insert]; [reflexivity|].
  now rewrite Hc.
Qed.

Lemma skipn_repeat {A} (c : A) k : forall n,
  skipn k (repeat c n) = repeat c (n - k).
Proof.
  induction k as [|k IH]; intros [|n]; cbn [skipn repeat Nat.sub]; auto.
Qed.

Lemma firstn_repeat {A} (c : A) k : forall n,
  k <= n -> firstn k (repeat c n) = repeat c k.
Proof.
  induction k as [|k IH]; intros [|n] Hk; cbn [firstn repeat]; try lia; auto.
  f_equal. apply IH. lia.
Qed.

Lemma filter_repeat_keep {A} (f : A -> bool) c n :
  f c = true -> filter f (repeat c n) = repeat c n.
Proof.
  intros Hc. induction n as [|n IH]; [reflexivity|].
  cbn [repeat filter]. now rewrite Hc, IH.
Qed.

Lemma filter_repeat_drop {A} (f : A -> bool) c n :
  f c = false -> filter f (repeat c n) = [].
Proof.
  intros Hc. induction n as [|n IH]; [reflexivity|].
  cbn [repeat filter]. now rewrite Hc, IH.
Qed.

Lemma mean_single c : np.isnan c = false -> np.mean [c] = c.
Proof.
  destruct c as [| | |q]; try discriminate; try reflexivity.
  intros _. unfold np.mean, np.sum, np.of_nat.
  cbn [fold_left length np.add]. rewrite Qc_of_nat_1.
  unfold np.true_divide. change (Qc_eq_bool 1 0) with false. cbn iota.
  now rewrite Qc_over_one.
Qed.

Lemma mean_pair c : np.isnan c = false -> np.mean [c; c] = c.
Proof.
  destruct c as [| | |q]; try discriminate; try reflexivity.
  intros _. unfold np.mean, np.sum, np.of_nat.
  cbn [fold_left length np.add]. rewrite Qc_of_nat_2.
  unfold np.true_divide. change (Qc_eq_bool (1 + 1) 0) with false. cbn iota.
  now rewrite Qc_half_sum.
Qed.

Lemma median_repeat c n :
  np.isnan c = false -> np.median (repeat c (S n)) = c.
Proof.
  intros Hc. unfold np.median.
  rewrite (sort_repeat c (S n) (less_equal_refl c Hc)), repeat_length.
  pose proof (Nat.div_mod_eq (S n) 2) as Hdiv.
  pose proof (Nat.mod_upper_bound (S n) 2 ltac:(lia)) as Hmod.
  unfold np.slice. rewrite !skipn_repeat.
  destruct (Nat.odd (S n)) eqn:Hodd.
  - replace (S n / 2 + 1 - S n / 2) with 1 by lia.
    rewrite firstn_repeat by lia. now apply mean_single.
  - assert (1 <= S n / 2).
    { destruct n as [|n]; [discriminate Hodd|].
      change (S (S n)) with (2 + n). 
      pose proof (Nat.div_mod_eq (2 + n) 2).
      pose proof (Nat.mod_upper_bound (2 + n) 2 ltac:(lia)). lia. }
    assert (Hm0 : S n mod 2 = 0).
    { rewrite <- Nat.negb_even in Hodd. apply negb_false_iff in Hodd.
      apply Nat.even_spec in Hodd. destruct Hodd as [k Hk]. rewrite Hk.
      rewrite Nat.mul_comm. apply Nat.Div0.mod_mul. }
    replace (S n / 2 + 1 - (S n / 2 - 1)) with 2 by lia.
    rewrite firstn_repeat by lia. now apply mean_pair.
Qed.

Lemma nanmedian_repeat shape c n :
  np.isnan c = false ->
  np.nanmedian (np.mk_ndarray shape (repeat c (S n))) = c.
Proof.
  intros Hc. unfold np.nanmedian. cbn [np.data].
  rewrite filter_repeat_keep by now rewrite Hc.
  change (repeat c (S n)) with (c :: repeat c n) at 1.
  cbv beta iota. now apply median_repeat.
Qed.

Lemma nanmedian_all_nan shape n :
  np.nanmedian (np.mk_ndarray shape (repeat np.nan n)) = np.nan.
Proof.
  unfold np.nanmedian. cbn [np.data].
  now rewrite filter_repeat_drop.
Qed.

Lemma deviation_from_itself c :
  np.absolute (np.subtract c c)
  = if np.isfinite c then np.fin 0 else np.nan.
Proof.
  destruct c as [| | |q]; try reflexivity.
  unfold np.subtract, np.negative, np.add, np.absolute, np.isfinite.
  now rewrite Qcplus_opp_r, Qcabs_0.
Qed.

Lemma abs_deviations_repeat c n :
  abs_deviations c (np.mk_ndarray [S n; 1] (repeat c (S n)))
  = np.mk_ndarray [S n; 1]
      (repeat (if np.isfinite c then np.fin 0 else np.nan) (S n)).
Proof.
  unfold abs_deviations, np.abs, np.elementwise, np.reshape_col.
  cbn [np.data np.shape]. rewrite map_map, map_repeat, repeat_length.
  now rewrite deviation_from_itself.
Qed.

(** For the one-row column [inf] the median is [inf], the deviation
    [|inf - inf|] is NaN and so is the cached median absolute deviation. *)
Lemma constant_infinite_column_counterexample : ~ constant_column_has_zero_mad.
Proof.
  intros H.
  destruct (H np.inf 0 None (detector (Float (dec 3.5)) (dec 0.1)) eq_refl)
    as (_ & Hmad & _).
  vm_compute in Hmad. discriminate Hmad.
Qed.

(** C7 (amended).  For every column of [n >= 1] equal values [fit] succeeds
    and every decision score is exactly 0.  When the value is finite and
    the median is taken without overflow (the column has an odd number of
    rows, so that the median is its middle element, or the value added to
    itself is still a finite double) the cached median is the value and the
    cached median absolute deviation is 0.  When the value is +Infinity or
    -Infinity every deviation [|x - median|] is NaN and the cached median
    absolute deviation is NaN, not 0. *)
Theorem constant_column_scores_are_zero :
  forall (c : np.float64) (n : nat) y s,
    np.isnan c = false ->
    let X := np.mk_ndarray [S n; 1] (repeat c (S n)) in
    fit X y s = (Ok tt, fitted X y s) /\
    option_map (@np.data _) (decision_scores_ (fitted X y s))
      = Some (repeat (np.fin 0) (S n)) /\
    (np.isfinite c = true ->
     Nat.odd (S n) = true \/ doubles_without_overflow c ->
     median_ (fitted X y s) = Some (Some c) /\
     median_diff_ (fitted X y s) = Some (Some (np.fin 0))) /\
    (np.isinf c = true ->
     median_ (fitted X y s) = Some (Some c) /\
     median_diff_ (fitted X y s) = Some (Some np.nan)).
Proof.
  intros c n y s Hc X.
  assert (Hm : np.nanmedian (np.reshape_col X) = c).
  { unfold np.reshape_col, X. cbn [np.data]. now apply nanmedian_repeat. }
  assert (Hd : np.nanmedian (abs_deviations c X)
               = if np.isfinite c then np.fin 0 else np.nan).
  { unfold X. rewrite abs_deviations_repeat.
    destruct (np.isfinite c).
    - now apply nanmedian_repeat.
    - apply nanmedian_all_nan. }
  split; [apply fit_column; exists n; reflexivity|].
  unfold fitted. cbn [median_ median_diff_ decision_scores_ option_map].
  rewrite Hm, Hd. split.
  - unfold scores_with, X. cbn [np.data]. rewrite map_repeat. do 2 f_equal.
    unfold modified_z_score. rewrite deviation_from_itself.
    destruct c as [| | |q]; try discriminate; reflexivity.
  - split.
    + intros Hk _. rewrite Hk. split; reflexivity.
    + intros Hk. destruct c; try discriminate; split; reflexivity.
Qed.

Lemma constant_column_scores_are_zero_witness :
  let X := np.mk_ndarray [4; 1] (repeat (dec 7) 4) in
  let s := detector (Float (dec 3.5)) (dec 0.1) in
  np.isnan (dec 7) = false /\
  np.isfinite (dec 7) = true /\
  doubles_without_overflow (dec 7) /\
  fit X None s = (Ok tt, fitted X None s) /\
  option_map (@np.data _) (decision_scores_ (fitted X None s))
    = Some [np.fin 0; np.fin 0; np.fin 0; np.fin 0] /\
  median_ (fitted X None s) = Some (Some (dec 7)) /\
  median_diff_ (fitted X None s) = Some (Some (np.fin 0)).
Proof.
  intros X s.
  assert (Hsmall : doubles_without_overflow (dec 7)).
  { cbn [doubles_without_overflow dec]. unfold Qcle. vm_compute.
    discriminate. }
  destruct (constant_column_scores_are_zero (dec 7) 3 None s eq_refl)
    as (H1 & H2 & H3 & _).
  destruct (H3 eq_refl (or_intror Hsmall)) as [H4 H5].
  split; [reflexivity|]. split; [reflexivity|]. split; [exact Hsmall|].
  split; [exact H1|]. split; [exact H2|]. split; [exact H4 | exact H5].
Defined.

(** * Further properties of the methods *)

(** ** What the methods write *)

Lemma decision_function_frame X s :
  let s' := snd (decision_function X s) in
  contamination s' = contamination s /\
  threshold s' = threshold s /\
  _classes s' = _classes s /\
  threshold_ s' = threshold_ s /\
  decision_scores_ s' = decision_scores_ s /\
  labels_ s' = labels_ s.
Proof.
  unfold decision_function. run.
  destruct (sklearn.check_array X) as [X'|e]; [|cbn; tauto].
  destruct (_check_dim X') as [[]|e]; [|cbn; tauto].
  unfold _mad. run.
  destruct (median_ s) as [c1|]; [|cbn; tauto]. run.
  destruct (median_diff_ s) as [c2|]; cbn; tauto.
Qed.

Lemma fit_frame X y s :
  contamination (snd (fit X y s)) = contamination s /\
  threshold (snd (fit X y s)) = threshold s.
Proof.
  destruct (fit_cases X y s) as [[_ Hok]|[_ [e He]]].
  - rewrite Hok. split; reflexivity.
  - rewrite He. split; reflexivity.
Qed.

Lemma score_all_frame Ys : forall s,
  contamination (score_all Ys s) = contamination s /\
  threshold (score_all Ys s) = threshold s.
Proof.
  induction Ys as [|Y Ys IH]; intros s; [split; reflexivity|].
  unfold score_all. cbn [fold_left].
  destruct (IH (snd (decision_function Y s))) as [Hc Ht].
  destruct (decision_function_frame Y s) as (Hc' & Ht' & _).
  unfold score_all in Hc, Ht. rewrite Hc, Ht. split; assumption.
Qed.

(** X1.  The configuration is fixed at construction: after any run of [fit]
    and [decision_function] calls, returning or raising, [contamination] and
    [threshold] are the values [__init__] was given. *)
Theorem configuration_is_fixed_at_construction :
  forall o c s0 calls,
    __init__ o c = Ok s0 ->
    contamination (after_calls calls s0) = c /\
    as_number o = Some (threshold (after_calls calls s0)).
Proof.
  intros o c s0 calls Hinit.
  assert (H0 : contamination s0 = c /\ as_number o = Some (threshold s0)).
  { unfold __init__ in Hinit. destruct (as_number o); [|discriminate].
    injection Hinit as <-. split; reflexivity. }
  clear Hinit. revert s0 H0.
  induction calls as [|call calls IH]; intros s0 H0; [exact H0|].
  unfold after_calls. cbn [fold_left]. apply IH.
  destruct H0 as [Hc Ht]. destruct call as [X y|X]; cbn [after_call].
  - destruct (fit_frame X y s0) as [Hc' Ht']. now rewrite Hc', Ht'.
  - destruct (decision_function_frame X s0) as (Hc' & Ht' & _).
    now rewrite Hc', Ht'.
Qed.

Lemma configuration_is_fixed_at_construction_witness :
  let X := column [dec 1; dec 2; dec 3] in
  let bad := np.mk_ndarray [2; 2] [dec 0; dec 0; dec 0; dec 0] in
  let s0 := detector (Int 2) (dec 0.1) in
  let calls := [Score X; Fit X None; Fit bad None; Score bad; Score X]%list in
  __init__ (PyInt 2) (dec 0.1) = Ok s0 /\
  contamination (after_calls calls s0) = dec 0.1 /\
  as_number (PyInt 2) = Some (threshold (after_calls calls s0)).
Proof.
  intros X bad s0 calls. split; [reflexivity|].
  apply (configuration_is_fixed_at_construction (PyInt 2) (dec 0.1) s0 calls).
  reflexivity.
Defined.

(** X2.  On an instance a caller can reach, a [decision_function] call that
    raises leaves the instance exactly as it was, and it raises for one of
    three reasons only: the validator rejects the input, the dimensionality
    check rejects it, or no [fit] has created the caches yet. *)
Theorem failed_score_leaves_instance_untouched :
  forall s,
    reachable s ->
    forall X e s',
      decision_function X s = (Raise e, s') ->
      s' = s /\
      (sklearn.check_array X = Raise e \/
       (sklearn.check_array X = Ok X /\ _check_dim X = Raise e) \/
       (single_column X /\ median_ s = None /\
        e = AttributeError "'MAD' object has no attribute 'median_'")).
Proof.
  intros s Hr X e s' Hrun.
  pose proof (reachable_well_formed s Hr) as (Hboth & _).
  split; [exact (decision_function_state X s Hboth e s' Hrun)|].
  revert Hrun. unfold decision_function. run.
  destruct (sklearn.check_array X) as [X'|e0] eqn:Hc;
    [|intros [= <- _]; now left].
  destruct (_check_dim X') as [[]|e1] eqn:Hd.
  - destruct (checks_pass_inv X _ Hc Hd) as [-> HX].
    destruct (median_ s) as [c1|] eqn:H1.
    + destruct (median_diff_ s) as [c2|] eqn:H2.
      * rewrite (_mad_run X _ _ _ H1 H2). discriminate.
      * destruct Hboth as [_ Hb]. specialize (Hb eq_refl). discriminate.
    + rewrite (_mad_unset X _ H1). intros [= <- _]. right. right. auto.
  - intros [= <- _]. right. left.
    assert (X' = X) as ->.
    { revert Hc. unfold sklearn.check_array.
      destruct (np.shape X) as [|a [|b [|? ?]]]; try discriminate;
        repeat match goal with
               | |- context [if ?c then _ else _] => destruct c
               end; try discriminate; now intros [= <-]. }
    split; [reflexivity | assumption].
Qed.

Lemma failed_score_leaves_instance_untouched_witness :
  let s := snd (fit (column [dec 1; dec 2; dec 3]) None
                  (detector (Float (dec 3.5)) (dec 0.1))) in
  let X := np.mk_ndarray [3] [dec 1; dec 2; dec 3] in
  let e := IndexError "tuple index out of range" in
  reachable s /\
  decision_function X s = (Raise e, s) /\
  (s = s /\
   (sklearn.check_array X = Raise e \/
    (sklearn.check_array X = Ok X /\ _check_dim X = Raise e) \/
    (single_column X /\ median_ s = None /\
     e = AttributeError "'MAD' object has no attribute 'median_'"))).
Proof.
  intros s X e.
  assert (Hr : reachable s).
  { apply reach_fit. apply (reach_init (PyFloat (dec 3.5)) (dec 0.1)).
    reflexivity. }
  assert (Hrun : decision_function X s = (Raise e, s)) by reflexivity.
  split; [exact Hr|]. split; [exact Hrun|].
  exact (failed_score_leaves_instance_untouched s Hr X e s Hrun).
Defined.

(** X3.  [fit] starts from scratch: on a valid column the outcome of
    [fit X] after an earlier [fit] and any scoring calls is the outcome
    [fit X] has on the instance before them; nothing of the earlier fit
    survives. *)
Theorem refit_forgets_previous_fit :
  forall X y X0 y0 Ys s,
    single_column X ->
    fit X y (score_all Ys (snd (fit X0 y0 s))) = fit X y s.
Proof.
  intros X y X0 y0 Ys s HX.
  rewrite !(fit_column X) by assumption. f_equal.
  destruct (score_all_frame Ys (snd (fit X0 y0 s))) as [Hc Ht].
  destruct (fit_frame X0 y0 s) as [Hc0 Ht0].
  unfold fitted. now rewrite Hc, Ht, Hc0, Ht0.
Qed.

Lemma refit_forgets_previous_fit_witness :
  let X := column [dec 1; dec 2; dec 3; dec 4; dec 5; dec 100] in
  let X0 := column [dec 7; dec 8; dec 30] in
  let s := detector (Float (dec 3.5)) (dec 0.1) in
  single_column X /\
  fit X None (score_all [X0; X] (snd (fit X0 None s))) = fit X None s.
Proof.
  intros X X0 s.
  assert (HX : single_column X) by (exists 5; reflexivity).
  split; [exact HX|].
  exact (refit_forgets_previous_fit X None X0 None [X0; X] s HX).
Defined.

(** ** Scoring against cached statistics *)

Lemma column_single l : l <> [] -> single_column (column l).
Proof.
  destruct l as [|x l]; [congruence|]. intros _.
  exists (length l). reflexivity.
Qed.

(** X4.  Scoring in batches: on a fitted detector the scores of a column
    that is the concatenation of two non-empty columns are the scores of
    the first followed by the scores of the second, and none of the three
    calls changes the instance. *)
Theorem scoring_in_batches :
  forall X y s0 s l1 l2,
    fit X y s0 = (Ok tt, s) ->
    l1 <> [] -> l2 <> [] ->
    exists r1 r2 r,
      decision_function (column l1) s = (Ok r1, s) /\
      decision_function (column l2) s = (Ok r2, s) /\
      decision_function (column (l1 ++ l2)) s = (Ok r, s) /\
      np.data r = np.data r1 ++ np.data r2.
Proof.
  intros X y s0 s l1 l2 Hfit H1 H2.
  destruct (fit_cases X y s0) as [[HX Hok]|[_ [e He]]];
    [|rewrite He in Hfit; discriminate].
  rewrite Hok in Hfit. injection Hfit as <-.
  set (m := np.nanmedian (np.reshape_col X)).
  set (d := np.nanmedian (abs_deviations m X)).
  assert (Hm : median_ (fitted X y s0) = Some (Some m)) by reflexivity.
  assert (Hd : median_diff_ (fitted X y s0) = Some (Some d)) by reflexivity.
  assert (H12 : l1 ++ l2 <> []).
  { destruct l1; [congruence | discriminate]. }
  exists (scores_with m d (column l1)), (scores_with m d (column l2)),
         (scores_with m d (column (l1 ++ l2))).
  split; [apply decision_function_cached; auto using column_single|].
  split; [apply decision_function_cached; auto using column_single|].
  split; [apply decision_function_cached; auto using column_single|].
  unfold scores_with, column. cbn [np.data]. apply map_app.
Qed.

Lemma scoring_in_batches_witness :
  let X := column [dec 1; dec 2; dec 3; dec 4; dec 5; dec 100] in
  let s0 := detector (Float (dec 3.5)) (dec 0.1) in
  fit X None s0 = (Ok tt, fitted X None s0) /\
  exists r1 r2 r,
    decision_function (column [dec 0; dec 9]) (fitted X None s0)
      = (Ok r1, fitted X None s0) /\
    decision_function (column [dec 50]) (fitted X None s0)
      = (Ok r2, fitted X None s0) /\
    decision_function (column ([dec 0; dec 9] ++ [dec 50]))
      (fitted X None s0) = (Ok r, fitted X None s0) /\
    np.data r = np.data r1 ++ np.data r2.
Proof.
  intros X s0.
  assert (Hfit : fit X None s0 = (Ok tt, fitted X None s0))
    by (apply fit_column; exists 5; reflexivity).
  split; [exact Hfit|].
  apply (scoring_in_batches X None s0 _ [dec 0; dec 9] [dec 50] Hfit);
    discriminate.
Defined.

Lemma score_of_missing m d :
  np.nan_to_num1 (modified_z_score m d np.nan) = np.fin 0.
Proof. destruct m, d; reflexivity. Qed.

Lemma score_at_median q d :
  np.nan_to_num1 (modified_z_score (np.fin q) d (np.fin q)) = np.fin 0.
Proof.
  unfold modified_z_score. rewrite deviation_from_itself. cbn [np.isfinite].
  destruct d as [| | |e]; try reflexivity.
  unfold coef, np.multiply, np.true_divide. rewrite Qcmult_0_r.
  destruct (Qc_eq_bool e 0) eqn:He; [reflexivity|].
  unfold Qcdiv. now rewrite Qcmult_0_l.
Qed.

Lemma score_nan_mad m x :
  np.nan_to_num1 (modified_z_score m np.nan x) = np.fin 0.
Proof.
  unfold modified_z_score.
  destruct (np.multiply coef (np.absolute (np.subtract x m))); reflexivity.
Qed.

Lemma decision_function_scores X s scores s' :
  decision_function X s = (Ok scores, s') ->
  exists m d,
    median_ s' = Some (Some m) /\ median_diff_ s' = Some (Some d) /\
    scores = scores_with m d X.
Proof.
  intros Hrun.
  destruct (decision_function_ok_inv _ _ _ _ Hrun)
    as (c1 & c2 & _ & H1 & H2 & Hm).
  rewrite (_mad_run X _ _ _ H1 H2) in Hm. injection Hm as <- <-.
  eexists. eexists. repeat split.
Qed.

(** X5.  Whatever statistics are cached, a returned score is 0 for every
    missing observation (NaN) and for every observation equal to the cached
    median, the median being a finite number. *)
Theorem missing_and_median_observations_score_zero :
  forall X s scores s' i x,
    decision_function X s = (Ok scores, s') ->
    nth_error (np.data X) i = Some x ->
    x = np.nan \/
    (np.isfinite x = true /\ median_ s' = Some (Some x)) ->
    nth_error (np.data scores) i = Some (np.fin 0).
Proof.
  intros X s scores s' i x Hrun Hi Hx.
  destruct (decision_function_scores _ _ _ _ Hrun) as (m & d & Hm & _ & ->).
  unfold scores_with. cbn [np.data]. rewrite nth_error_map, Hi.
  cbn [option_map]. f_equal.
  destruct Hx as [-> | [Hfin Hmed]].
  - apply score_of_missing.
  - rewrite Hm in Hmed. injection Hmed as ->.
    destruct x; try discriminate. apply score_at_median.
Qed.

Lemma missing_and_median_observations_score_zero_witness :
  let X := column [dec 1; np.nan; dec 3; dec 5] in
  let s := fitted X None (detector (Float (dec 3.5)) (dec 0.1)) in
  decision_function X s = (Ok (scores_with (dec 3) (dec 2) X), s) /\
  nth_error (np.data X) 1 = Some np.nan /\
  nth_error (np.data (scores_with (dec 3) (dec 2) X)) 1 = Some (np.fin 0).
Proof.
  intros X s.
  assert (Hrun : decision_function X s
                 = (Ok (scores_with (dec 3) (dec 2) X), s)).
  { apply decision_function_cached.
    - exists 3. reflexivity.
    - cbn [s fitted median_]. float_eq.
    - cbn [s fitted median_diff_]. float_eq. }
  split; [exact Hrun|]. split; [reflexivity|].
  apply (missing_and_median_observations_score_zero
           X s _ s 1 np.nan Hrun eq_refl).
  left. reflexivity.
Defined.

(** ** Columns without a usable value *)

Lemma filter_all_nan l :
  Forall (fun x => np.isnan x = true) l ->
  filter (fun x => negb (np.isnan x)) l = [].
Proof.
  induction 1 as [|x l Hx Hl IH]; [reflexivity|].
  cbn [filter]. now rewrite Hx, IH.
Qed.

(** X6.  A column holding nothing but missing values is fitted without an
    error: the cached median and median absolute deviation are both NaN and
    every decision score is 0. *)
Theorem all_missing_column_is_fitted :
  forall X y s,
    single_column X ->
    Forall (fun x => np.isnan x = true) (np.data X) ->
    fst (fit X y s) = Ok tt /\
    median_ (snd (fit X y s)) = Some (Some np.nan) /\
    median_diff_ (snd (fit X y s)) = Some (Some np.nan) /\
    exists scores,
      decision_scores_ (snd (fit X y s)) = Some scores /\
      length (np.data scores) = length (np.data X) /\
      Forall (fun r => r = np.fin 0) (np.data scores).
Proof.
  intros X y s HX Hnan. rewrite (fit_column X y s HX). cbn [fst snd].
  assert (Hm : np.nanmedian (np.reshape_col X) = np.nan).
  { unfold np.nanmedian, np.reshape_col. cbn [np.data].
    now rewrite filter_all_nan. }
  unfold fitted. cbn [median_ median_diff_ decision_scores_]. rewrite Hm.
  assert (Hd : np.nanmedian (abs_deviations np.nan X) = np.nan).
  { unfold np.nanmedian, abs_deviations, np.abs, np.elementwise,
      np.reshape_col. cbn [np.data]. rewrite map_map.
    rewrite filter_all_nan; [reflexivity|].
    apply Forall_forall. intros z Hz. apply in_map_iff in Hz.
    destruct Hz as [x [<- _]]. destruct x; reflexivity. }
  rewrite Hd. repeat split.
  eexists. split; [reflexivity|]. split; [apply length_map|].
  unfold scores_with. cbn [np.data]. apply Forall_forall.
  intros z Hz. apply in_map_iff in Hz. destruct Hz as [x [<- _]].
  apply score_nan_mad.
Qed.

Lemma all_missing_column_is_fitted_witness :
  let X := column [np.nan; np.nan; np.nan] in
  let s := detector (Float (dec 3.5)) (dec 0.1) in
  single_column X /\
  Forall (fun x => np.isnan x = true) (np.data X) /\
  fst (fit X None s) = Ok tt /\
  median_ (snd (fit X None s)) = Some (Some np.nan) /\
  median_diff_ (snd (fit X None s)) = Some (Some np.nan).
Proof.
  intros X s.
  assert (HX : single_column X) by (exists 2; reflexivity).
  assert (Hn : Forall (fun x => np.isnan x = true) (np.data X))
    by (repeat constructor).
  destruct (all_missing_column_is_fitted X None s HX Hn)
    as (H1 & H2 & H3 & _).
  split; [exact HX|]. split; [exact Hn|]. split; [exact H1|].
  split; [exact H2 | exact H3].
Defined.

(** ** Thresholds at the ends of the scale *)

Lemma greater_nan_threshold x : np.greater x np.nan = false.
Proof. destruct x; reflexivity. Qed.

Lemma greater_negative_threshold r t :
  finite_nonneg r -> (t < 0)%Qc -> np.greater r (np.fin t) = true.
Proof.
  destruct r as [| | |q]; cbn [finite_nonneg]; try contradiction.
  intros Hq Ht. cbn [np.greater]. apply negb_true_iff.
  destruct (Qle_bool q t) eqn:E; [|reflexivity].
  apply Qle_bool_iff in E. exfalso.
  apply (Qcle_not_lt 0 q Hq). apply Qcle_lt_trans with t; assumption.
Qed.

(** X7.  After [fit], a NaN threshold flags no observation (every label is
    0, a comparison with NaN being false), and a negative threshold flags
    every observation (every label is 1, scores being at least 0). *)
Theorem labels_for_nan_and_negative_thresholds :
  forall X y s s',
    fit X y s = (Ok tt, s') ->
    exists labels,
      labels_ s' = Some labels /\
      length (np.data labels) = length (np.data X) /\
      (to_float64 (threshold s) = np.nan ->
       Forall (fun l => l = 0%Z) (np.data labels)) /\
      (forall t, to_float64 (threshold s) = np.fin t -> (t < 0)%Qc ->
                 Forall (fun l => l = 1%Z) (np.data labels)).
Proof.
  intros X y s s' Hfit.
  destruct (fit_cases X y s) as [[HX Hok]|[_ [e He]]];
    [|rewrite He in Hfit; discriminate].
  rewrite Hok in Hfit. injection Hfit as <-.
  pose proof (fitted_well_formed X y s) as (_ & _ & Hs).
  specialize (Hs _ eq_refl).
  eexists. split; [reflexivity|].
  unfold labels_of. cbn [np.data].
  split; [unfold scores_with; cbn [np.data]; now rewrite !length_map|].
  split.
  - intros Ht. rewrite Ht. apply Forall_forall. intros z Hz.
    apply in_map_iff in Hz. destruct Hz as [r [<- _]].
    now rewrite greater_nan_threshold.
  - intros t Ht Hneg. rewrite Ht. apply Forall_forall. intros z Hz.
    apply in_map_iff in Hz. destruct Hz as [r [<- Hr]].
    rewrite Forall_forall in Hs.
    now rewrite (greater_negative_threshold r t (Hs r Hr) Hneg).
Qed.

Lemma labels_for_nan_and_negative_thresholds_witness :
  let X := column [dec 1; dec 2; dec 3; dec 4; dec 5; dec 100] in
  let s := detector (Int (-1)) (dec 0.1) in
  fit X None s = (Ok tt, fitted X None s) /\
  exists labels,
    labels_ (fitted X None s) = Some labels /\
    Forall (fun l => l = 1%Z) (np.data labels).
Proof.
  intros X s.
  assert (Hfit : fit X None s = (Ok tt, fitted X None s))
    by (apply fit_column; exists 5; reflexivity).
  split; [exact Hfit|].
  destruct (labels_for_nan_and_negative_thresholds X None s _ Hfit)
    as (labels & Hl & _ & _ & Hneg).
  exists labels. split; [exact Hl|].
  apply (Hneg (Q2Qc (inject_Z (-1)))); reflexivity.
Defined.

(** ** Scores grow with the distance from the median *)

Section Monotone.

Local Open Scope Qc_scope.

Lemma Qc_scale_le (c t t' : Qc) : 0 <= c -> t <= t' -> c * t <= c * t'.
Proof.
  intros Hc Ht. rewrite (Qcmult_comm c t), (Qcmult_comm c t').
  now apply Qcmult_le_compat_r.
Qed.

Lemma Qc_div_le (u u' e : Qc) : 0 <= e -> u <= u' -> u / e <= u' / e.
Proof.
  intros He Hu. unfold Qcdiv.
  apply Qcmult_le_compat_r; [assumption | now apply Qc_nonneg_inv].
Qed.

Lemma score_monotone (b a a' : Qc) (d : np.float64) :
  nonneg_or_nan d ->
  Qcabs (a - b) <= Qcabs (a' - b) ->
  exists r r',
    np.nan_to_num1 (modified_z_score (np.fin b) d (np.fin a)) = np.fin r /\
    np.nan_to_num1 (modified_z_score (np.fin b) d (np.fin a')) = np.fin r' /\
    r <= r'.
Proof.
  intros Hd Hle. unfold modified_z_score.
  cbn [np.subtract np.negative np.add np.absolute].
  change (a + - b) with (a - b). change (a' + - b) with (a' - b).
  set (t := Qcabs (a - b)) in *. set (t' := Qcabs (a' - b)) in *.
  assert (Ht : 0 <= t) by apply Qcabs_nonneg.
  assert (Hc : 0 <= Q2Qc (6745 # 10000)) by exact coef_nonneg.
  unfold coef. cbn [np.multiply].
  pose proof (Qc_scale_le _ _ _ Hc Hle) as Hu.
  pose proof (Qc_nonneg_mult _ _ Hc Ht) as Hu0.
  set (u := Q2Qc (6745 # 10000) * t) in *.
  set (u' := Q2Qc (6745 # 10000) * t') in *.
  destruct d as [| | |e]; cbn [nonneg_or_nan] in Hd; try contradiction.
  - exists 0, 0. repeat split. apply Qcle_refl.
  - exists 0, 0. repeat split. apply Qcle_refl.
  - unfold np.true_divide. destruct (Qc_eq_bool e 0).
    + unfold np.sgn.
      destruct (u ?= 0) eqn:E; destruct (u' ?= 0) eqn:E'; cbn.
      * exists 0, 0. repeat split. apply Qcle_refl.
      * apply Qclt_alt in E'. exfalso.
        apply (Qcle_not_lt _ _ (Qcle_trans _ _ _ Hu0 Hu) E').
      * exists 0, np.float64_max. repeat split. exact float64_max_nonneg.
      * apply Qclt_alt in E. exfalso. exact (Qcle_not_lt _ _ Hu0 E).
      * apply Qclt_alt in E. exfalso. exact (Qcle_not_lt _ _ Hu0 E).
      * apply Qclt_alt in E. exfalso. exact (Qcle_not_lt _ _ Hu0 E).
      * apply Qceq_alt in E'. apply Qcgt_alt in E. exfalso.
        rewrite E' in Hu. exact (Qcle_not_lt _ _ Hu E).
      * apply Qclt_alt in E'. exfalso.
        apply (Qcle_not_lt _ _ (Qcle_trans _ _ _ Hu0 Hu) E').
      * exists np.float64_max, np.float64_max. repeat split.
        apply Qcle_refl.
    + exists (u / e), (u' / e). repeat split. now apply Qc_div_le.
Qed.

End Monotone.

(** X8.  On an instance a caller can reach, with a finite cached median,
    returned scores are monotone in the distance from that median: of two
    finite observations the one at least as far from the median gets a
    score at least as large. *)
Theorem scores_grow_with_distance_from_median :
  forall s,
    reachable s ->
    forall X scores s' b i j a a',
      decision_function X s = (Ok scores, s') ->
      median_ s' = Some (Some (np.fin b)) ->
      nth_error (np.data X) i = Some (np.fin a) ->
      nth_error (np.data X) j = Some (np.fin a') ->
      (Qcabs (a - b) <= Qcabs (a' - b))%Qc ->
      exists r r',
        nth_error (np.data scores) i = Some (np.fin r) /\
        nth_error (np.data scores) j = Some (np.fin r') /\
        (r <= r')%Qc.
Proof.
  intros s Hr X scores s' b i j a a' Hrun Hmed Hi Hj Hle.
  assert (Hwf : well_formed s').
  { apply reachable_well_formed.
    replace s' with (snd (decision_function X s)) by now rewrite Hrun.
    now apply reach_score. }
  destruct (decision_function_scores _ _ _ _ Hrun) as (m & d & Hm & Hd & ->).
  rewrite Hm in Hmed. injection Hmed as ->.
  destruct Hwf as (_ & Hnn & _). specialize (Hnn d Hd).
  destruct (score_monotone b a a' d Hnn Hle) as (r & r' & E & E' & Hrr).
  exists r, r'. unfold scores_with. cbn [np.data].
  rewrite !nth_error_map, Hi, Hj. cbn [option_map].
  rewrite E, E'. auto.
Qed.

Lemma scores_grow_with_distance_from_median_witness :
  let X := column [dec 1; dec 2; dec 3; dec 4; dec 5; dec 100] in
  let s := snd (fit X None (detector (Float (dec 3.5)) (dec 0.1))) in
  reachable s /\
  decision_function X s = (Ok (scores_with (dec 3.5) (dec 1.5) X), s) /\
  exists r r',
    nth_error (np.data (scores_with (dec 3.5) (dec 1.5) X)) 1
      = Some (np.fin r) /\
    nth_error (np.data (scores_with (dec 3.5) (dec 1.5) X)) 5
      = Some (np.fin r') /\
    (r <= r')%Qc.
Proof.
  intros X s.
  assert (Hr : reachable s).
  { apply reach_fit. apply (reach_init (PyFloat (dec 3.5)) (dec 0.1)).
    reflexivity. }
  assert (Hm : median_ s = Some (Some (dec 3.5)))
    by (apply (option_eqb_eq _ (option_eqb_eq _ float64_eqb_eq));
        vm_compute; reflexivity).
  assert (Hd : median_diff_ s = Some (Some (dec 1.5)))
    by (apply (option_eqb_eq _ (option_eqb_eq _ float64_eqb_eq));
        vm_compute; reflexivity).
  assert (Hrun : decision_function X s
                 = (Ok (scores_with (dec 3.5) (dec 1.5) X), s)).
  { apply decision_function_cached; [exists 5; reflexivity | | ];
      assumption. }
  split; [exact Hr|]. split; [exact Hrun|].
  apply (scores_grow_with_distance_from_median
           s Hr X _ s (Q2Qc 3.5) 1 5 (Q2Qc 2) (Q2Qc 100) Hrun Hm
           eq_refl eq_refl).
  unfold Qcle. vm_compute. discriminate.
Defined.

(** ** Missing values and the statistics *)

Lemma filter_deviations m l :
  filter (fun x => negb (np.isnan x))
         (map (fun x => np.absolute (np.subtract x m)) l)
  = filter (fun x => negb (np.isnan x))
           (map (fun x => np.absolute (np.subtract x m))
                (filter (fun x => negb (np.isnan x)) l)).
Proof.
  induction l as [|x l IH]; [reflexivity|].
  destruct x; cbn [map filter np.isnan negb]; try exact IH;
    now rewrite IH.
Qed.

Lemma nanmedian_filter a a' :
  filter (fun x => negb (np.isnan x)) (np.data a)
  = filter (fun x => negb (np.isnan x)) (np.data a') ->
  np.nanmedian a = np.nanmedian a'.
Proof. intros H. unfold np.nanmedian. now rewrite H. Qed.

Lemma abs_deviations_data m X :
  np.data (abs_deviations m X)
  = map (fun x => np.absolute (np.subtract x m)) (np.data X).
Proof.
  unfold abs_deviations, np.abs, np.elementwise, np.reshape_col.
  cbn [np.data]. apply map_map.
Qed.

(** X9.  Missing values do not take part in the statistics: two valid
    columns with the same non-NaN values in the same order are fitted with
    the same median and the same median absolute deviation, and an
    observation gets the same score in both.  In particular dropping the
    NaN rows of a column changes neither statistic. *)
Theorem missing_values_do_not_change_statistics :
  forall X X' y s,
    single_column X -> single_column X' ->
    filter (fun x => negb (np.isnan x)) (np.data X)
    = filter (fun x => negb (np.isnan x)) (np.data X') ->
    median_ (snd (fit X y s)) = median_ (snd (fit X' y s)) /\
    median_diff_ (snd (fit X y s)) = median_diff_ (snd (fit X' y s)) /\
    exists scores scores',
      decision_scores_ (snd (fit X y s)) = Some scores /\
      decision_scores_ (snd (fit X' y s)) = Some scores' /\
      forall i j x,
        nth_error (np.data X) i = Some x ->
        nth_error (np.data X') j = Some x ->
        nth_error (np.data scores) i = nth_error (np.data scores') j.
Proof.
  intros X X' y s HX HX' Hsame.
  rewrite (fit_column X y s HX), (fit_column X' y s HX'). cbn [snd].
  assert (Hm : np.nanmedian (np.reshape_col X)
               = np.nanmedian (np.reshape_col X'))
    by (apply nanmedian_filter; exact Hsame).
  assert (Hd : np.nanmedian (abs_deviations (np.nanmedian (np.reshape_col X)) X)
               = np.nanmedian
                   (abs_deviations (np.nanmedian (np.reshape_col X')) X')).
  { rewrite <- Hm. apply nanmedian_filter. rewrite !abs_deviations_data.
    rewrite (filter_deviations _ (np.data X)).
    rewrite (filter_deviations _ (np.data X')). now rewrite Hsame. }
  unfold fitted. cbn [median_ median_diff_ decision_scores_].
  rewrite <- Hd, <- Hm. split; [reflexivity|]. split; [reflexivity|].
  eexists. eexists. split; [reflexivity|]. split; [reflexivity|].
  intros i j x Hi Hj. unfold scores_with. cbn [np.data].
  now rewrite !nth_error_map, Hi, Hj.
Qed.

Lemma missing_values_do_not_change_statistics_witness :
  let X := column [dec 1; np.nan; dec 3; dec 5] in
  let X' := column [dec 1; dec 3; dec 5] in
  let s := detector (Float (dec 3.5)) (dec 0.1) in
  single_column X /\ single_column X' /\
  median_ (snd (fit X None s)) = median_ (snd (fit X' None s)) /\
  median_diff_ (snd (fit X None s)) = median_diff_ (snd (fit X' None s)).
Proof.
  intros X X' s.
  assert (HX : single_column X) by (exists 3; reflexivity).
  assert (HX' : single_column X') by (exists 2; reflexivity).
  destruct (missing_values_do_not_change_statistics X X' None s HX HX'
              eq_refl) as (H1 & H2 & _).
  split; [exact HX|]. split; [exact HX'|]. split; [exact H1 | exact H2].
Defined.

(** ** The order of values and the sorted part *)

Lemma less_equal_total x y :
  np.isnan x = false -> np.isnan y = false ->
  np.less_equal x y = true \/ np.less_equal y x = true.
Proof.
  destruct x as [| | |a], y as [| | |b]; cbn; try discriminate; auto.
  intros _ _. destruct (Qlt_le_dec a b) as [H|H].
  - left. apply Qle_bool_iff. now apply Qlt_le_weak.
  - right. now apply Qle_bool_iff.
Qed.

Lemma less_equal_trans x y z :
  np.less_equal x y = true -> np.less_equal y z = true ->
  np.less_equal x z = true.
Proof.
  destruct x as [| | |a], y as [| | |b], z as [| | |c]; cbn;
    try discriminate; auto.
  rewrite !Qle_bool_iff. apply Qle_trans.
Qed.

Lemma less_equal_antisym x y :
  np.less_equal x y = true -> np.less_equal y x = true -> x = y.
Proof.
  destruct x as [| | |a], y as [| | |b]; cbn; try discriminate; auto.
  rewrite !Qle_bool_iff. intros H1 H2. f_equal.
  apply Qc_is_canon. now apply Qle_antisym.
Qed.

Lemma less_equal_not_nan x y :
  np.less_equal x y = true -> np.isnan x = false /\ np.isnan y = false.
Proof. destruct x, y; cbn; try discriminate; auto. Qed.

Lemma insert_length x l : length (np.insert x l) = S (length l).
Proof.
  induction l as [|y l IH]; [reflexivity|]. cbn [np.insert].
  destruct (np.less_equal x y); cbn [length]; [reflexivity | now rewrite IH].
Qed.

Lemma sort_length l : length (np.sort l) = length l.
Proof.
  induction l as [|x l IH]; [reflexivity|].
  cbn [np.sort]. now rewrite insert_length, IH.
Qed.

Lemma insert_perm x l : Permutation (x :: l) (np.insert x l).
Proof.
  induction l as [|y l IH]; [reflexivity|]. cbn [np.insert].
  destruct (np.less_equal x y); [reflexivity|].
  rewrite perm_swap. now apply perm_skip.
Qed.

Lemma sort_perm l : Permutation l (np.sort l).
Proof.
  induction l as [|x l IH]; [constructor|]. cbn [np.sort].
  rewrite <- insert_perm. now apply perm_skip.
Qed.

Lemma insert_comm x y l :
  np.isnan x = false -> np.isnan y = false ->
  Forall (fun z => np.isnan z = false) l ->
  np.insert x (np.insert y l) = np.insert y (np.insert x l).
Proof.
  intros Hx Hy. induction 1 as [|z l Hz Hl IH].
  - cbn [np.insert].
    destruct (np.less_equal x y) eqn:Exy, (np.less_equal y x) eqn:Eyx;
      try reflexivity.
    + now rewrite (less_equal_antisym x y Exy Eyx).
    + destruct (less_equal_total x y Hx Hy); congruence.
  - cbn [np.insert].
    destruct (np.less_equal y z) eqn:Eyz, (np.less_equal x z) eqn:Exz;
      cbn [np.insert]; rewrite ?Eyz, ?Exz.
    + destruct (np.less_equal x y) eqn:Exy, (np.less_equal y x) eqn:Eyx;
        cbn [np.insert]; rewrite ?Eyz, ?Exz; try reflexivity.
      * now rewrite (less_equal_antisym x y Exy Eyx).
      * destruct (less_equal_total x y Hx Hy); congruence.
    + destruct (np.less_equal x y) eqn:Exy; [|reflexivity].
      rewrite (less_equal_trans x y z Exy Eyz) in Exz. discriminate.
    + destruct (np.less_equal y x) eqn:Eyx; [|reflexivity].
      rewrite (less_equal_trans y x z Eyx Exz) in Eyz. discriminate.
    + now rewrite IH.
Qed.

Lemma sort_of_permutation l l' :
  Permutation l l' ->
  Forall (fun z => np.isnan z = false) l ->
  np.sort l = np.sort l'.
Proof.
  induction 1 as [|x l l' Hp IH|x y l|l l' l'' Hp1 IH1 Hp2 IH2]; intros Hnn.
  - reflexivity.
  - inversion Hnn; subst. cbn [np.sort]. now rewrite IH.
  - inversion Hnn as [|? ? Hy Hnn']; subst.
    inversion Hnn' as [|? ? Hx Hl]; subst. cbn [np.sort].
    apply insert_comm; try assumption. now apply sort_Forall.
  - rewrite IH1 by assumption. apply IH2.
    now apply (Permutation_Forall Hp1).
Qed.

Lemma filter_permutation {A} (f : A -> bool) l l' :
  Permutation l l' -> Permutation (filter f l) (filter f l').
Proof.
  induction 1 as [|x l l' Hp IH|x y l|l l' l'' Hp1 IH1 Hp2 IH2].
  - constructor.
  - cbn [filter]. destruct (f x); [now apply perm_skip | assumption].
  - cbn [filter]. destruct (f x), (f y); try reflexivity. apply perm_swap.
  - now transitivity (filter f l').
Qed.

Lemma filter_not_nan l :
  Forall (fun z => np.isnan z = false)
         (filter (fun x => negb (np.isnan x)) l).
Proof.
  apply Forall_forall. intros z Hz. apply filter_In in Hz.
  destruct Hz as [_ Hz]. now apply negb_true_iff in Hz.
Qed.

Lemma median_of_permutation l l' :
  Permutation l l' ->
  Forall (fun z => np.isnan z = false) l ->
  np.median l = np.median l'.
Proof.
  intros Hp Hnn. unfold np.median.
  now rewrite (sort_of_permutation l l' Hp Hnn).
Qed.

Lemma nanmedian_of_permutation a a' :
  Permutation (np.data a) (np.data a') ->
  np.nanmedian a = np.nanmedian a'.
Proof.
  intros Hp. unfold np.nanmedian.
  pose proof (filter_permutation (fun x => negb (np.isnan x)) _ _ Hp) as Hf.
  pose proof (filter_not_nan (np.data a)) as Hnn.
  destruct (filter _ (np.data a)) as [|x l] eqn:E.
  - apply Permutation_nil in Hf. now rewrite Hf.
  - destruct (filter _ (np.data a')) as [|x' l'] eqn:E'.
    + symmetry in Hf. apply Permutation_nil in Hf. discriminate.
    + now apply median_of_permutation.
Qed.

(** X10.  The order of the observations does not matter: two valid columns
    that are rearrangements of one another are fitted with the same median
    and the same median absolute deviation, and their decision scores and
    labels are rearranged the same way as the observations. *)
Theorem fit_does_not_depend_on_row_order :
  forall X X' y s,
    single_column X -> single_column X' ->
    Permutation (np.data X) (np.data X') ->
    median_ (snd (fit X y s)) = median_ (snd (fit X' y s)) /\
    median_diff_ (snd (fit X y s)) = median_diff_ (snd (fit X' y s)) /\
    exists scores scores' labels labels',
      decision_scores_ (snd (fit X y s)) = Some scores /\
      decision_scores_ (snd (fit X' y s)) = Some scores' /\
      labels_ (snd (fit X y s)) = Some labels /\
      labels_ (snd (fit X' y s)) = Some labels' /\
      Permutation (np.data scores) (np.data scores') /\
      Permutation (np.data labels) (np.data labels') /\
      forall i j x,
        nth_error (np.data X) i = Some x ->
        nth_error (np.data X') j = Some x ->
        nth_error (np.data scores) i = nth_error (np.data scores') j /\
        nth_error (np.data labels) i = nth_error (np.data labels') j.
Proof.
  intros X X' y s HX HX' Hp.
  rewrite (fit_column X y s HX), (fit_column X' y s HX'). cbn [snd].
  assert (Hm : np.nanmedian (np.reshape_col X)
               = np.nanmedian (np.reshape_col X'))
    by (apply nanmedian_of_permutation; exact Hp).
  assert (Hd : np.nanmedian (abs_deviations (np.nanmedian (np.reshape_col X)) X)
               = np.nanmedian
                   (abs_deviations (np.nanmedian (np.reshape_col X')) X')).
  { rewrite <- Hm. apply nanmedian_of_permutation.
    rewrite !abs_deviations_data. now apply Permutation_map. }
  unfold fitted. cbn [median_ median_diff_ decision_scores_ labels_].
  rewrite <- Hd, <- Hm. split; [reflexivity|]. split; [reflexivity|].
  do 4 eexists. do 4 (split; [reflexivity|]).
  unfold labels_of, scores_with. cbn [np.data].
  split; [now apply Permutation_map|].
  split; [now apply Permutation_map, Permutation_map|].
  intros i j x Hi Hj. split; now rewrite !nth_error_map, Hi, Hj.
Qed.

Lemma fit_does_not_depend_on_row_order_witness :
  let X := column [dec 1; dec 2; dec 3; dec 4; dec 5; dec 100] in
  let X' := column [dec 100; dec 3; dec 1; dec 5; dec 2; dec 4] in
  let s := detector (Float (dec 3.5)) (dec 0.1) in
  single_column X /\ single_column X' /\
  Permutation (np.data X) (np.data X') /\
  median_ (snd (fit X None s)) = median_ (snd (fit X' None s)) /\
  median_diff_ (snd (fit X None s)) = median_diff_ (snd (fit X' None s)).
Proof.
  intros X X' s.
  assert (HX : single_column X) by (exists 5; reflexivity).
  assert (HX' : single_column X') by (exists 5; reflexivity).
  assert (Hp : Permutation (np.data X) (np.data X')).
  { cbn [X X' column np.data].
    apply Permutation_cons_app
      with (l1 := [dec 100; dec 3]%list) (l2 := [dec 5; dec 2; dec 4]%list).
    apply Permutation_cons_app
      with (l1 := [dec 100; dec 3; dec 5]%list) (l2 := [dec 4]%list).
    apply Permutation_cons_app
      with (l1 := [dec 100]%list) (l2 := [dec 5; dec 4]%list).
    apply Permutation_cons_app with (l1 := [dec 100; dec 5]%list) (l2 := nil).
    apply Permutation_cons_app with (l1 := [dec 100]%list) (l2 := nil).
    reflexivity. }
  destruct (fit_does_not_depend_on_row_order X X' None s HX HX' Hp)
    as (H1 & H2 & _).
  split; [exact HX|]. split; [exact HX'|]. split; [exact Hp|].
  split; [exact H1 | exact H2].
Defined.

(** ** Half of the data lies on either side of the median *)

Lemma insert_sorted x l :
  np.isnan x = false ->
  Forall (fun z => np.isnan z = false) l ->
  StronglySorted (fun a b => np.less_equal a b = true) l ->
  StronglySorted (fun a b => np.less_equal a b = true) (np.insert x l).
Proof.
  intros Hx Hnn Hs. induction Hs as [|y l Hs IH Hy].
  - repeat constructor.
  - inversion Hnn as [|? ? Hny Hnl]; subst. cbn [np.insert].
    destruct (np.less_equal x y) eqn:Exy.
    + constructor; [now constructor|].
      constructor; [assumption|].
      eapply Forall_impl; [|exact Hy]. intros z Hz.
      now apply less_equal_trans with y.
    + constructor; [now apply IH|].
      apply insert_Forall; [|assumption].
      destruct (less_equal_total x y Hx Hny); congruence.
Qed.

Lemma sort_sorted l :
  Forall (fun z => np.isnan z = false) l ->
  StronglySorted (fun a b => np.less_equal a b = true) (np.sort l).
Proof.
  induction 1 as [|x l Hx Hl IH]; [constructor|]. cbn [np.sort].
  apply insert_sorted; [assumption | now apply sort_Forall | assumption].
Qed.

Lemma sort_count (p : np.float64 -> bool) l :
  length (filter p (np.sort l)) = length (filter p l).
Proof.
  symmetry. apply Permutation_length, filter_permutation, sort_perm.
Qed.

Lemma nth_error_skipn_cons {A} (s : list A) : forall k x,
  nth_error s k = Some x -> skipn k s = x :: skipn (S k) s.
Proof.
  induction s as [|a s IH]; intros [|k] x H; try discriminate.
  - now injection H as ->.
  - cbn [nth_error] in H. cbn [skipn]. now apply IH.
Qed.

Lemma sorted_firstn s :
  StronglySorted (fun a b => np.less_equal a b = true) s ->
  Forall (fun z => np.isnan z = false) s ->
  forall k x,
    nth_error s k = Some x ->
    Forall (fun z => np.less_equal z x = true) (firstn (S k) s).
Proof.
  induction 1 as [|a s Hs IH Ha]; intros Hnn k x Hk.
  - destruct k; discriminate.
  - inversion Hnn as [|? ? Hna Hns]; subst. destruct k as [|k].
    + injection Hk as <-. cbn [firstn]. constructor; [|constructor].
      now apply less_equal_refl.
    + cbn [nth_error] in Hk. cbn [firstn]. constructor.
      * rewrite Forall_forall in Ha. apply Ha.
        now apply nth_error_In with k.
      * now apply IH.
Qed.

Lemma sorted_skipn s :
  StronglySorted (fun a b => np.less_equal a b = true) s ->
  Forall (fun z => np.isnan z = false) s ->
  forall k x,
    nth_error s k = Some x ->
    Forall (fun z => np.less_equal x z = true) (skipn k s).
Proof.
  induction 1 as [|a s Hs IH Ha]; intros Hnn k x Hk.
  - destruct k; discriminate.
  - inversion Hnn as [|? ? Hna Hns]; subst. destruct k as [|k].
    + injection Hk as <-. cbn [skipn]. constructor; [|assumption].
      now apply less_equal_refl.
    + cbn [nth_error] in Hk. cbn [skipn]. now apply IH.
Qed.

Lemma filter_all {A} (p : A -> bool) l :
  Forall (fun z => p z = true) l -> filter p l = l.
Proof.
  induction 1 as [|x l Hx Hl IH]; [reflexivity|].
  cbn [filter]. now rewrite Hx, IH.
Qed.

Lemma count_firstn {A} (p : A -> bool) j s :
  Forall (fun z => p z = true) (firstn j s) ->
  j <= length s -> j <= length (filter p s).
Proof.
  intros Hp Hj. rewrite <- (firstn_skipn j s) at 1.
  rewrite filter_app, length_app, (filter_all p _ Hp), length_firstn. lia.
Qed.

Lemma count_skipn {A} (p : A -> bool) j s :
  Forall (fun z => p z = true) (skipn j s) ->
  length s - j <= length (filter p s).
Proof.
  intros Hp. rewrite <- (firstn_skipn j s) at 2.
  rewrite filter_app, length_app, (filter_all p _ Hp), length_skipn. lia.
Qed.

Lemma half_odd n : Nat.odd n = true -> n = 2 * (n / 2) + 1.
Proof.
  intros H. apply Nat.odd_spec in H. destruct H as [m Hm].
  pose proof (Nat.div_mod_eq n 2).
  pose proof (Nat.mod_upper_bound n 2 ltac:(lia)). lia.
Qed.

Lemma half_even n : Nat.odd n = false -> n = 2 * (n / 2).
Proof.
  intros H. rewrite <- Nat.negb_even in H. apply negb_false_iff in H.
  apply Nat.even_spec in H. destruct H as [m Hm].
  pose proof (Nat.div_mod_eq n 2).
  pose proof (Nat.mod_upper_bound n 2 ltac:(lia)). lia.
Qed.

Lemma median_odd l x :
  Nat.odd (length l) = true ->
  nth_error (np.sort l) (length l / 2) = Some x ->
  np.isnan x = false ->
  np.median l = x.
Proof.
  intros Hodd Hk Hx. unfold np.median. rewrite sort_length, Hodd.
  unfold np.slice. rewrite (nth_error_skipn_cons _ _ _ Hk).
  replace (length l / 2 + 1 - length l / 2) with 1 by lia.
  cbn [firstn]. now apply mean_single.
Qed.

Lemma median_even l x x' :
  Nat.odd (length l) = false ->
  1 <= length l / 2 ->
  nth_error (np.sort l) (length l / 2 - 1) = Some x ->
  nth_error (np.sort l) (length l / 2) = Some x' ->
  np.median l = np.mean [x; x'].
Proof.
  intros Hodd Hk1 Hx Hx'. unfold np.median. rewrite sort_length, Hodd.
  unfold np.slice. rewrite (nth_error_skipn_cons _ _ _ Hx).
  replace (S (length l / 2 - 1)) with (length l / 2) by lia.
  rewrite (nth_error_skipn_cons _ _ _ Hx').
  replace (length l / 2 + 1 - (length l / 2 - 1)) with 2 by lia.
  reflexivity.
Qed.

Section Midpoint.

Local Open Scope Qc_scope.

Lemma mean_pair_fin (a a' : Qc) :
  np.mean [np.fin a; np.fin a'] = np.fin ((0 + a + a') / (1 + 1)).
Proof.
  unfold np.mean, np.sum, np.of_nat.
  cbn [fold_left length np.add]. rewrite Qc_of_nat_2.
  unfold np.true_divide. change (Qc_eq_bool (1 + 1) 0) with false.
  reflexivity.
Qed.

Lemma Qc_half_nonneg : 0 <= 1 + 1.
Proof. unfold Qcle, Qle. simpl. lia. Qed.

Lemma midpoint_lower (a a' : Qc) : a <= a' -> a <= (0 + a + a') / (1 + 1).
Proof.
  intros H. rewrite <- (Qc_half_sum a) at 1.
  apply Qc_div_le; [exact Qc_half_nonneg|].
  apply Qcplus_le_compat; [apply Qcle_refl | exact H].
Qed.

Lemma midpoint_upper (a a' : Qc) : a <= a' -> (0 + a + a') / (1 + 1) <= a'.
Proof.
  intros H. rewrite <- (Qc_half_sum a') at 2.
  apply Qc_div_le; [exact Qc_half_nonneg|].
  apply Qcplus_le_compat; [|apply Qcle_refl].
  apply Qcplus_le_compat; [apply Qcle_refl | exact H].
Qed.

End Midpoint.

Lemma finite_not_nan l :
  Forall (fun x => np.isfinite x = true) l ->
  Forall (fun z => np.isnan z = false) l.
Proof.
  apply Forall_impl. intros x. destruct x; cbn; congruence.
Qed.

(** The median of a non-empty list of finite values is a finite value with
    at least half of the list at or below it and at least half at or above
    it. *)
Lemma median_half l :
  l <> [] ->
  Forall (fun x => np.isfinite x = true) l ->
  exists e,
    np.median l = np.fin e /\
    length l <= 2 * length (filter (fun x => np.less_equal x (np.fin e)) l) /\
    length l <= 2 * length (filter (fun x => np.less_equal (np.fin e) x) l).
Proof.
  intros Hne Hfin.
  pose proof (finite_not_nan l Hfin) as Hnn.
  pose proof (sort_sorted l Hnn) as Hsorted.
  pose proof (sort_Forall _ l Hfin) as Hsfin.
  pose proof (sort_Forall _ l Hnn) as Hsnn.
  pose proof (sort_length l) as Hlen.
  assert (Hpos : 0 < length l) by (destruct l; [congruence | cbn; lia]).
  set (k := length l / 2).
  assert (Hk : k < length l) by (apply Nat.div_lt; lia).
  destruct (nth_error (np.sort l) k) as [x'|] eqn:Ex';
    [|apply nth_error_None in Ex'; lia].
  pose proof (proj1 (Forall_forall _ _) Hsfin x' (nth_error_In _ _ Ex'))
    as Hx'fin.
  destruct x' as [| | |a']; try discriminate.
  destruct (Nat.odd (length l)) eqn:Hodd.
  - pose proof (half_odd _ Hodd) as Hn. fold k in Hn.
    exists a'. split; [now apply median_odd|].
    rewrite <- !(sort_count _ l). split.
    + pose proof (count_firstn (fun x => np.less_equal x (np.fin a'))
                    (S k) (np.sort l)
                    (sorted_firstn _ Hsorted Hsnn k _ Ex')). lia.
    + pose proof (count_skipn (fun x => np.less_equal (np.fin a') x)
                    k (np.sort l)
                    (sorted_skipn _ Hsorted Hsnn k _ Ex')). lia.
  - pose proof (half_even _ Hodd) as Hn. fold k in Hn.
    assert (Hk1 : 1 <= k) by lia.
    destruct (nth_error (np.sort l) (k - 1)) as [x|] eqn:Ex;
      [|apply nth_error_None in Ex; lia].
    pose proof (proj1 (Forall_forall _ _) Hsfin x (nth_error_In _ _ Ex))
      as Hxfin.
    destruct x as [| | |a]; try discriminate.
    assert (Haa : (a <= a')%Qc).
    { pose proof (sorted_skipn _ Hsorted Hsnn (k - 1) _ Ex) as Hs.
      rewrite (nth_error_skipn_cons _ _ _ Ex) in Hs.
      replace (S (k - 1)) with k in Hs by lia.
      rewrite (nth_error_skipn_cons _ _ _ Ex') in Hs.
      inversion Hs as [|? ? _ Hs']; subst.
      inversion Hs' as [|? ? Hle _]; subst.
      cbn [np.less_equal] in Hle. now apply Qle_bool_iff in Hle. }
    exists ((0 + a + a') / (1 + 1))%Qc.
    split; [rewrite <- mean_pair_fin; now apply median_even|].
    rewrite <- !(sort_count _ l). split.
    + assert (Hp : Forall (fun z => np.less_equal z
                              (np.fin ((0 + a + a') / (1 + 1))%Qc) = true)
                     (firstn k (np.sort l))).
      { pose proof (sorted_firstn _ Hsorted Hsnn (k - 1) _ Ex) as Hs.
        replace (S (k - 1)) with k in Hs by lia.
        eapply Forall_impl; [|exact Hs]. intros z Hz.
        apply less_equal_trans with (np.fin a); [exact Hz|].
        cbn [np.less_equal]. apply Qle_bool_iff.
        exact (midpoint_lower a a' Haa). }
      pose proof (count_firstn _ k (np.sort l) Hp). lia.
    + assert (Hp : Forall (fun z => np.less_equal
                              (np.fin ((0 + a + a') / (1 + 1))%Qc) z = true)
                     (skipn k (np.sort l))).
      { pose proof (sorted_skipn _ Hsorted Hsnn k _ Ex') as Hs.
        eapply Forall_impl; [|exact Hs]. intros z Hz.
        apply less_equal_trans with (np.fin a'); [|exact Hz].
        cbn [np.less_equal]. apply Qle_bool_iff.
        exact (midpoint_upper a a' Haa). }
      pose proof (count_skipn
                    (fun x => np.less_equal
                                (np.fin ((0 + a + a') / (1 + 1))%Qc) x)
                    k (np.sort l) Hp). lia.
Qed.

Lemma nanmedian_finite a :
  np.data a <> [] ->
  Forall (fun x => np.isfinite x = true) (np.data a) ->
  np.nanmedian a = np.median (np.data a).
Proof.
  intros Hne Hfin. unfold np.nanmedian.
  rewrite filter_all.
  - destruct (np.data a); [congruence | reflexivity].
  - eapply Forall_impl; [|exact Hfin]. intros x. now destruct x.
Qed.

Lemma deviations_finite b l :
  Forall (fun x => np.isfinite x = true) l ->
  Forall (fun x => np.isfinite x = true)
         (map (fun x => np.absolute (np.subtract x (np.fin b))) l).
Proof.
  intros H. apply Forall_forall. intros z Hz. apply in_map_iff in Hz.
  destruct Hz as [x [<- Hx]]. rewrite Forall_forall in H.
  specialize (H x Hx). now destruct x.
Qed.

Lemma count_map_le {A B C} (p : B -> bool) (q : C -> bool)
  (f : A -> B) (g : A -> C) l :
  (forall x, In x l -> p (f x) = true -> q (g x) = true) ->
  length (filter p (map f l)) <= length (filter q (map g l)).
Proof.
  induction l as [|x l IH]; intros H; [reflexivity|].
  cbn [map filter].
  assert (IH' : length (filter p (map f l)) <= length (filter q (map g l)))
    by (apply IH; intros z Hz; apply H; now right).
  destruct (p (f x)) eqn:E.
  - rewrite (H x (or_introl eq_refl) E). cbn [length]. lia.
  - destruct (q (g x)); cbn [length]; lia.
Qed.

Lemma count_disjoint {A} (p q : A -> bool) l :
  (forall x, In x l -> p x = true -> q x = false) ->
  length (filter p l) + length (filter q l) <= length l.
Proof.
  induction l as [|x l IH]; intros H; [reflexivity|].
  cbn [filter].
  assert (IH' : length (filter p l) + length (filter q l) <= length l)
    by (apply IH; intros z Hz; apply H; now right).
  destruct (p x) eqn:E.
  - rewrite (H x (or_introl eq_refl) E). cbn [length]. lia.
  - destruct (q x); cbn [length]; lia.
Qed.

Lemma count_overlap {A} (p q : A -> bool) l :
  length l < length (filter p l) + length (filter q l) ->
  exists x, In x l /\ p x = true /\ q x = true.
Proof.
  induction l as [|x l IH]; cbn [filter length]; [lia|].
  destruct (p x) eqn:Ep, (q x) eqn:Eq; cbn [length]; intros H.
  - exists x. split; [now left | auto].
  - destruct IH as (z & Hz & Hpz & Hqz); [lia|].
    exists z. split; [now right | auto].
  - destruct IH as (z & Hz & Hpz & Hqz); [lia|].
    exists z. split; [now right | auto].
  - destruct IH as (z & Hz & Hpz & Hqz); [lia|].
    exists z. split; [now right | auto].
Qed.

Lemma greater_false_of_le r t :
  np.less_equal r t = true -> np.greater r t = false.
Proof.
  destruct r as [| | |a], t as [| | |b]; cbn; try discriminate; auto.
  now intros ->.
Qed.

Lemma Qc_eq_bool_false (e : Qc) : Qc_eq_bool e 0%Qc = false -> e <> 0%Qc.
Proof.
  unfold Qc_eq_bool. destruct (Qc_eq_dec e 0%Qc); [discriminate | auto].
Qed.

Section ScoreBound.

Local Open Scope Qc_scope.

(** A deviation at or below the median absolute deviation scores at most
    0.6745. *)
Lemma score_at_most_coef (b e a : Qc) :
  Qcabs (a - b) <= e ->
  np.less_equal
    (np.nan_to_num1 (modified_z_score (np.fin b) (np.fin e) (np.fin a)))
    coef = true.
Proof.
  intros Hle. unfold modified_z_score.
  cbn [np.subtract np.negative np.add np.absolute].
  change (a + - b) with (a - b). set (t := Qcabs (a - b)) in *.
  assert (Ht : 0 <= t) by apply Qcabs_nonneg.
  unfold coef. cbn [np.multiply]. unfold np.true_divide.
  destruct (Qc_eq_bool e 0) eqn:He.
  - apply Qc_eq_bool_correct in He. subst e.
    assert (t = 0) as -> by (now apply Qcle_antisym).
    rewrite Qcmult_0_r. reflexivity.
  - apply Qc_eq_bool_false in He. cbn [np.nan_to_num1 np.less_equal].
    apply Qle_bool_iff.
    change (Q2Qc (6745 # 10000) * t / e <= Q2Qc (6745 # 10000)).
    rewrite <- (Qcdiv_mult_l (Q2Qc (6745 # 10000)) e He) at 2.
    apply Qc_div_le; [now apply Qcle_trans with t|].
    now apply Qc_scale_le; [exact coef_nonneg|].
Qed.

End ScoreBound.

(** X11.  A column of finite values (no NaN, no infinity) is fitted so that
    at least half of its decision scores are at most 1: a deviation that
    does not exceed the median absolute deviation gives a quotient of at
    most 0.6745, which stays at or below 1 also when the product and the
    quotient are rounded.  Hence with a threshold of 1 or more, the default
    3.5 included, [fit] never labels more than half of the observations as
    outliers. *)
Theorem fit_flags_at_most_half :
  forall X y s,
    single_column X ->
    np.data X <> [] ->
    Forall (fun x => np.isfinite x = true) (np.data X) ->
    exists scores labels,
      decision_scores_ (snd (fit X y s)) = Some scores /\
      labels_ (snd (fit X y s)) = Some labels /\
      length (np.data X)
        <= 2 * length (filter (fun r => np.less_equal r (dec 1))
                              (np.data scores)) /\
      (np.less_equal (dec 1) (to_float64 (threshold s)) = true ->
       2 * length (filter (Z.eqb 1) (np.data labels))
         <= length (np.data X)).
Proof.
  intros X y s HX Hne Hfin.
  rewrite (fit_column X y s HX). cbn [snd].
  unfold fitted. cbn [decision_scores_ labels_].
  assert (Hm : np.nanmedian (np.reshape_col X) = np.median (np.data X))
    by (apply (nanmedian_finite (np.reshape_col X)); assumption).
  destruct (median_half (np.data X) Hne Hfin) as (b & Hb & _).
  rewrite Hm, Hb.
  set (f := fun x => np.absolute (np.subtract x (np.fin b))).
  assert (Hdne : map f (np.data X) <> [])
    by (destruct (np.data X); [congruence | discriminate]).
  pose proof (deviations_finite b _ Hfin) as Hdfin. fold f in Hdfin.
  assert (Hd : np.nanmedian (abs_deviations (np.fin b) X)
               = np.median (map f (np.data X))).
  { pose proof (abs_deviations_data (np.fin b) X) as Hdata. fold f in Hdata.
    rewrite <- Hdata in Hdne, Hdfin |- *. now apply nanmedian_finite. }
  destruct (median_half _ Hdne Hdfin) as (e & He & Hhalf & _).
  rewrite Hd, He. rewrite length_map in Hhalf.
  do 2 eexists. split; [reflexivity|]. split; [reflexivity|].
  unfold labels_of, scores_with. cbn [np.data].
  set (g := fun x => np.nan_to_num1
                       (modified_z_score (np.fin b) (np.fin e) x)).
  assert (Hcount :
            length (filter (fun x => np.less_equal x (np.fin e))
                           (map f (np.data X)))
            <= length (filter (fun r => np.less_equal r (dec 1))
                              (map g (np.data X)))).
  { apply count_map_le. intros x Hx Hle.
    rewrite Forall_forall in Hfin. specialize (Hfin x Hx).
    destruct x as [| | |a]; try discriminate.
    unfold g. apply less_equal_trans with coef; [|reflexivity].
    apply score_at_most_coef.
    unfold f in Hle. cbn in Hle. now apply Qle_bool_iff in Hle. }
  split; [lia|].
  intros Ht.
  set (t := to_float64 (threshold s)) in *.
  set (h := fun r => if np.greater r t then 1%Z else 0%Z).
  pose proof (count_map_le (Z.eqb 1) (fun r => np.greater r t)
                h (fun r => r) (map g (np.data X))) as Hflag.
  rewrite map_id in Hflag.
  pose proof (count_disjoint (fun r => np.greater r t)
                (fun r => np.less_equal r (dec 1)) (map g (np.data X)))
    as Hdis.
  rewrite length_map in Hdis.
  assert (H1 : length (filter (Z.eqb 1) (map h (map g (np.data X))))
               <= length (filter (fun r => np.greater r t)
                                 (map g (np.data X)))).
  { apply Hflag. intros r _. unfold h.
    destruct (np.greater r t); [reflexivity | discriminate]. }
  assert (H2 : length (filter (fun r => np.greater r t)
                              (map g (np.data X)))
               + length (filter (fun r => np.less_equal r (dec 1))
                                (map g (np.data X)))
               <= length (np.data X)).
  { apply Hdis. intros r _ Hgt.
    destruct (np.less_equal r (dec 1)) eqn:Hle; [|reflexivity].
    rewrite (greater_false_of_le r t (less_equal_trans _ _ _ Hle Ht)) in Hgt.
    discriminate. }
  lia.
Qed.

Lemma fit_flags_at_most_half_witness :
  let X := column [dec 1; dec 2; dec 3; dec 4; dec 5; dec 100] in
  let s := detector (Float (dec 3.5)) (dec 0.1) in
  single_column X /\
  np.data X <> [] /\
  Forall (fun x => np.isfinite x = true) (np.data X) /\
  np.less_equal (dec 1) (to_float64 (threshold s)) = true /\
  exists labels,
    labels_ (snd (fit X None s)) = Some labels /\
    2 * length (filter (Z.eqb 1) (np.data labels)) <= length (np.data X).
Proof.
  intros X s.
  assert (HX : single_column X) by (exists 5; reflexivity).
  assert (Hne : np.data X <> []) by discriminate.
  assert (Hfin : Forall (fun x => np.isfinite x = true) (np.data X))
    by (repeat constructor).
  assert (Ht : np.less_equal (dec 1) (to_float64 (threshold s)) = true)
    by reflexivity.
  destruct (fit_flags_at_most_half X None s HX Hne Hfin)
    as (scores & labels & _ & Hl & _ & Hflag).
  split; [exact HX|]. split; [exact Hne|]. split; [exact Hfin|].
  split; [exact Ht|]. exists labels. split; [exact Hl | exact (Hflag Ht)].
Defined.

(** ** A value held by more than half of the column *)

Lemma float64_eqb_refl x : float64_eqb x x = true.
Proof.
  destruct x as [| | |q]; try reflexivity. cbn [float64_eqb].
  unfold Qc_eq_bool. destruct (Qc_eq_dec q q); congruence.
Qed.

Lemma majority_median l v :
  Forall (fun x => np.isfinite x = true) l ->
  length l < 2 * length (filter (float64_eqb (np.fin v)) l) ->
  np.median l = np.fin v.
Proof.
  intros Hfin Hmaj.
  assert (Hne : l <> []) by (destruct l; [cbn in Hmaj; lia | discriminate]).
  destruct (median_half l Hne Hfin) as (e & He & Hlow & Hhigh).
  rewrite He. f_equal. apply Qcle_antisym.
  - destruct (count_overlap (fun x => np.less_equal (np.fin e) x)
                (float64_eqb (np.fin v)) l) as (x & _ & Hle & Heq); [lia|].
    apply float64_eqb_eq in Heq. subst x.
    cbn [np.less_equal] in Hle. now apply Qle_bool_iff in Hle.
  - destruct (count_overlap (fun x => np.less_equal x (np.fin e))
                (float64_eqb (np.fin v)) l) as (x & _ & Hle & Heq); [lia|].
    apply float64_eqb_eq in Heq. subst x.
    cbn [np.less_equal] in Hle. now apply Qle_bool_iff in Hle.
Qed.

Section FarFromMedian.

Local Open Scope Qc_scope.

Lemma Qc_minus_zero (a v : Qc) : a - v = 0 -> a = v.
Proof.
  intros H. assert (E : a = (a - v) + v) by ring. rewrite E, H. ring.
Qed.

(** With a median absolute deviation of 0, a finite observation away from
    the median scores the largest finite double. *)
Lemma score_off_median_zero_mad (v a : Qc) :
  a <> v ->
  np.nan_to_num1 (modified_z_score (np.fin v) (np.fin 0) (np.fin a))
  = np.fin np.float64_max.
Proof.
  intros Hav. unfold modified_z_score.
  cbn [np.subtract np.negative np.add np.absolute].
  change (a + - v) with (a - v).
  assert (Ht : 0 < Qcabs (a - v)).
  { destruct (Qcle_lt_or_eq _ _ (Qcabs_nonneg (a - v))) as [H|H];
      [exact H|].
    exfalso. apply Hav. apply Qc_minus_zero. apply Qcabs_null. now symmetry. }
  unfold coef. cbn [np.multiply]. unfold np.true_divide.
  change (Qc_eq_bool 0 0) with true. cbn iota. unfold np.sgn.
  assert (Hpos : 0 < Q2Qc (6745 # 10000) * Qcabs (a - v)).
  { rewrite <- (Qcmult_0_l (Qcabs (a - v))).
    apply Qcmult_lt_compat_r; [exact Ht|]. reflexivity. }
  apply Qcgt_alt in Hpos. now rewrite Hpos.
Qed.

End FarFromMedian.

(** X12.  When more than half of the observations of a finite column hold
    one and the same value, and the median is taken without overflow (an
    odd number of rows, or the value added to itself is still a finite
    double), that value is the cached median and the cached median absolute
    deviation is 0; the observations holding it score 0 and every other
    observation scores the largest finite double, whatever its distance. *)
Theorem majority_value_gives_zero_mad :
  forall X y s v,
    single_column X ->
    Forall (fun x => np.isfinite x = true) (np.data X) ->
    length (np.data X)
      < 2 * length (filter (float64_eqb (np.fin v)) (np.data X)) ->
    Nat.odd (length (np.data X)) = true \/
    doubles_without_overflow (np.fin v) ->
    median_ (snd (fit X y s)) = Some (Some (np.fin v)) /\
    median_diff_ (snd (fit X y s)) = Some (Some (np.fin 0)) /\
    exists scores,
      decision_scores_ (snd (fit X y s)) = Some scores /\
      forall i x,
        nth_error (np.data X) i = Some x ->
        nth_error (np.data scores) i
          = Some (if float64_eqb (np.fin v) x
                  then np.fin 0
                  else np.fin np.float64_max).
Proof.
  intros X y s v HX Hfin Hmaj _.
  rewrite (fit_column X y s HX). cbn [snd].
  unfold fitted. cbn [median_ median_diff_ decision_scores_].
  assert (Hne : np.data X <> []).
  { destruct (np.data X); [cbn in Hmaj; lia | discriminate]. }
  assert (Hm : np.nanmedian (np.reshape_col X) = np.fin v).
  { rewrite (nanmedian_finite (np.reshape_col X)) by assumption.
    now apply majority_median. }
  rewrite Hm.
  set (f := fun x => np.absolute (np.subtract x (np.fin v))).
  pose proof (abs_deviations_data (np.fin v) X) as Hdata. fold f in Hdata.
  pose proof (deviations_finite v _ Hfin) as Hdfin. fold f in Hdfin.
  assert (Hd : np.nanmedian (abs_deviations (np.fin v) X) = np.fin 0).
  { rewrite nanmedian_finite; rewrite Hdata;
      [| destruct (np.data X); [congruence | discriminate] | exact Hdfin].
    apply majority_median; [exact Hdfin|].
    rewrite length_map.
    pose proof (count_map_le (float64_eqb (np.fin v))
                  (float64_eqb (np.fin 0)) (fun x => x) f (np.data X))
      as Hc.
    rewrite map_id in Hc.
    assert (length (filter (float64_eqb (np.fin v)) (np.data X))
            <= length (filter (float64_eqb (np.fin 0))
                              (map f (np.data X)))); [|lia].
    apply Hc. intros x _ Hx. apply float64_eqb_eq in Hx. subst x.
    unfold f. rewrite deviation_from_itself. reflexivity. }
  rewrite Hd. split; [reflexivity|]. split; [reflexivity|].
  eexists. split; [reflexivity|].
  intros i x Hi. unfold scores_with. cbn [np.data].
  rewrite nth_error_map, Hi. cbn [option_map]. f_equal.
  rewrite Forall_forall in Hfin.
  specialize (Hfin x (nth_error_In _ _ Hi)).
  destruct x as [| | |a]; try discriminate.
  destruct (float64_eqb (np.fin v) (np.fin a)) eqn:E.
  - apply float64_eqb_eq in E. injection E as <-. apply score_at_median.
  - apply score_off_median_zero_mad. intros ->.
    now rewrite float64_eqb_refl in E.
Qed.

Lemma majority_value_gives_zero_mad_witness :
  let X := column [dec 1; dec 1; dec 1; dec 5; dec 2; dec 1] in
  let s := detector (Float (dec 3.5)) (dec 0.1) in
  single_column X /\
  Forall (fun x => np.isfinite x = true) (np.data X) /\
  length (np.data X)
    < 2 * length (filter (float64_eqb (dec 1)) (np.data X)) /\
  doubles_without_overflow (dec 1) /\
  median_ (snd (fit X None s)) = Some (Some (dec 1)) /\
  median_diff_ (snd (fit X None s)) = Some (Some (np.fin 0)).
Proof.
  intros X s.
  assert (HX : single_column X) by (exists 5; reflexivity).
  assert (Hfin : Forall (fun x => np.isfinite x = true) (np.data X))
    by (repeat constructor).
  assert (Hmaj : length (np.data X)
                 < 2 * length (filter (float64_eqb (dec 1)) (np.data X)))
    by (vm_compute; lia).
  assert (Hsmall : doubles_without_overflow (dec 1)).
  { cbn [doubles_without_overflow dec]. unfold Qcle. vm_compute.
    discriminate. }
  destruct (majority_value_gives_zero_mad X None s (Q2Qc 1) HX Hfin Hmaj
              (or_intror Hsmall)) as (H1 & H2 & _).
  split; [exact HX|]. split; [exact Hfin|]. split; [exact Hmaj|].
  split; [exact Hsmall|]. split; [exact H1 | exact H2].
Defined.

(** ** Scoring is read-only *)

Lemma reachable_caches s :
  reachable s ->
  (median_ s = None /\ median_diff_ s = None) \/
  (exists m d, median_ s = Some (Some m) /\ median_diff_ s = Some (Some d)).
Proof.
  induction 1 as [t c s Hinit|X y s Hr IH|X s Hr IH].
  - unfold __init__ in Hinit. destruct (as_number t); [|discriminate].
    injection Hinit as <-. left. split; reflexivity.
  - destruct (fit_cases X y s) as [[_ Hok]|[_ [e He]]].
    + rewrite Hok. right. do 2 eexists. split; reflexivity.
    + rewrite He. exact IH.
  - assert (Hsame : snd (decision_function X s) = s).
    { destruct IH as [[H1 H2]|(m & d & H1 & H2)].
      - destruct (decision_function X s) as [[scores|e] s'] eqn:Hrun.
        + destruct (decision_function_ok_inv _ _ _ _ Hrun)
            as (c1 & _ & _ & Hc & _). congruence.
        + cbn [snd]. apply (decision_function_state X s) with (e := e);
            [|assumption]. rewrite H1, H2. tauto.
      - exact (decision_function_keeps_state X s m d H1 H2). }
    rewrite Hsame. exact IH.
Qed.

(** X13.  On every instance a caller can reach, [decision_function] is
    read-only: whether it returns or raises, and whatever its input, the
    instance afterwards is the instance before.  The branch of [_mad] that
    computes and caches statistics from the scored column is taken inside
    [fit] only. *)
Theorem scoring_is_read_only :
  forall s,
    reachable s ->
    forall X,
      snd (decision_function X s) = s /\
      (forall scores, fst (decision_function X s) = Ok scores ->
         exists m d,
           median_ s = Some (Some m) /\ median_diff_ s = Some (Some d) /\
           scores = scores_with m d X).
Proof.
  intros s Hr X.
  assert (Hsame : snd (decision_function X s) = s).
  { destruct (reachable_caches s Hr) as [[H1 H2]|(m & d & H1 & H2)].
    - destruct (decision_function X s) as [[scores|e] s'] eqn:Hrun.
      + destruct (decision_function_ok_inv _ _ _ _ Hrun)
          as (c1 & _ & _ & Hc & _). congruence.
      + cbn [snd]. apply (decision_function_state X s) with (e := e);
          [|assumption]. rewrite H1, H2. tauto.
    - exact (decision_function_keeps_state X s m d H1 H2). }
  split; [exact Hsame|].
  intros scores Hok.
  destruct (decision_function X s) as [r s'] eqn:Hrun.
  cbn [fst snd] in Hok, Hsame. subst r s'.
  destruct (decision_function_scores _ _ _ _ Hrun) as (m & d & Hm & Hd & E).
  exists m, d. auto.
Qed.

Lemma scoring_is_read_only_witness :
  let s := snd (fit (column [dec 1; dec 2; dec 3]) None
                  (detector (Float (dec 3.5)) (dec 0.1))) in
  let X := column [dec 40; dec 2] in
  reachable s /\ snd (decision_function X s) = s.
Proof.
  intros s X.
  assert (Hr : reachable s).
  { apply reach_fit. apply (reach_init (PyFloat (dec 3.5)) (dec 0.1)).
    reflexivity. }
  split; [exact Hr|].
  exact (proj1 (scoring_is_read_only s Hr X)).
Defined.

(** ** Which inputs are accepted *)

(** X14.  Whatever the base-class method of line 81 does, [fit] returns
    exactly when the array has shape [(n, 1)] with [n >= 1] and that method
    returns for the label argument: the values in the array and the state
    of the instance play no part.  On a fitted detector [decision_function]
    returns exactly for the arrays of shape [(n, 1)] with [n >= 1]. *)
Theorem accepted_inputs :
  forall (Y : Type) (set_n_classes : Y -> method MAD unit) X y s,
    (fst (fit_with set_n_classes X y s) = Ok tt <->
     single_column X /\ fst (set_n_classes y s) = Ok tt) /\
    (forall X0 y0 s0,
       fit_with set_n_classes X0 y0 s0 = (Ok tt, s) ->
       (exists scores, fst (decision_function X s) = Ok scores)
       <-> single_column X).
Proof.
  intros Y set_n_classes X y s. split.
  - destruct (single_column_dec X) as [HX|HX].
    + rewrite (fit_with_column set_n_classes X y s HX).
      destruct (set_n_classes y s) as [[[]|e] s1]; cbn [fst].
      * tauto.
      * split; [discriminate | intros [_ H]; discriminate H].
    + destruct (fit_with_rejects set_n_classes X y s HX) as (e & Hrun & _).
      rewrite Hrun. cbn [fst]. split; [discriminate | tauto].
  - intros X0 y0 s0 Hfit.
    assert (Hs : exists s1, s = fitted_from X0 s1).
    { destruct (single_column_dec X0) as [HX0|HX0].
      - rewrite (fit_with_column set_n_classes X0 y0 s0 HX0) in Hfit.
        destruct (set_n_classes y0 s0) as [[[]|e] s1]; [|discriminate].
        injection Hfit as <-. now exists s1.
      - destruct (fit_with_rejects set_n_classes X0 y0 s0 HX0)
          as (e & Hrun & _). rewrite Hrun in Hfit. discriminate. }
    destruct Hs as [s1 ->]. split.
    + intros [scores Hs].
      destruct (decision_function X (fitted_from X0 s1)) as [r s'] eqn:Hrun.
      cbn [fst] in Hs. subst r.
      destruct (decision_function_ok_inv _ _ _ _ Hrun) as (_ & _ & HX & _).
      exact HX.
    + intros HX. eexists.
      rewrite (decision_function_cached X (fitted_from X0 s1) _ _ HX
                 eq_refl eq_refl). reflexivity.
Qed.
